(** * Wholesale trade time series: a model of [src/analysis_script.py]

    The script loads two Census Bureau tables (monthly sales and
    inventories of merchant wholesalers), cleans each into a (Date, value)
    frame, inner-joins the two on Date, derives the inventories-to-sales
    ratio and the twelve-row percent change of sales, writes the merged
    table and draws four charts.

    Conventions of the model.
    - Python [str] is [list ascii]; code points below 128 are classified as
      Python's [re] and [str.strip] classify them, the others count as
      punctuation.
    - A float64 cell is an exact rational or one of the three non-finite
      values; binary rounding and signed zeros are not represented.
    - A cell of the raw frame is the text that [astype(str)] gives for it.
    - What [pd.read_csv] finds on disk is an input of the model
      ([filesystem]); console output, directory creation, the written
      table and the saved figures are events of a trace. *)

From Stdlib Require Import List Ascii String Bool Arith ZArith QArith Lia Lqa.
From Stdlib Require Import Sorted Permutation Orders Mergesort.
Import ListNotations.

(** ** Text *)

Definition str := list ascii.

Notation "'txt' s" := (list_ascii_of_string s) (at level 9, only parsing).

Fixpoint str_eqb (a b : str) : bool :=
  match a, b with
  | [], [] => true
  | x :: a', y :: b' => Ascii.eqb x y && str_eqb a' b'
  | _, _ => false
  end.

Definition code (c : ascii) : N := N_of_ascii c.

Definition in_range (lo hi : N) (c : ascii) : bool :=
  (N.leb lo (code c) && N.leb (code c) hi)%bool.

Definition is_digit (c : ascii) : bool := in_range 48 57 c.

Definition is_upper (c : ascii) : bool := in_range 65 90 c.

Definition is_lower (c : ascii) : bool := in_range 97 122 c.

(** [\w] of a [str] pattern: letters, digits and the underscore. *)
Definition is_word (c : ascii) : bool :=
  is_digit c || is_upper c || is_lower c || N.eqb (code c) 95.

(** [\s] of a [str] pattern and the characters [str.strip()] removes:
    tab, line feed, vertical tab, form feed, carriage return, the four
    separators 0x1c-0x1f and the space. *)
Definition is_space (c : ascii) : bool :=
  in_range 9 13 c || in_range 28 31 c || N.eqb (code c) 32.

Definition space : ascii := " "%char.

Definition lower (c : ascii) : ascii :=
  if is_upper c then ascii_of_N (code c + 32) else c.

(** The complement of the class [[^\w\s]]. *)
Definition word_or_space (c : ascii) : bool := is_word c || is_space c.

(** [re.sub(r'[^\w\s]', '', s)] *)
Definition remove_punctuation (s : str) : str := filter word_or_space s.

(** [re.sub(r'\s+', ' ', s)]: [in_run] tells that the previous character
    belonged to the whitespace run being replaced. *)
Fixpoint collapse_from (in_run : bool) (s : str) : str :=
  match s with
  | [] => []
  | c :: t =>
      if is_space c
      then (if in_run then collapse_from true t
            else space :: collapse_from true t)
      else c :: collapse_from false t
  end.

Definition collapse_whitespace (s : str) : str := collapse_from false s.

Fixpoint lstrip (s : str) : str :=
  match s with
  | [] => []
  | c :: t => if is_space c then lstrip t else s
  end.

Fixpoint rstrip (s : str) : str :=
  match s with
  | [] => []
  | c :: t =>
      match rstrip t with
      | [] => if is_space c then [] else [c]
      | r => c :: r
      end
  end.

(** [s.strip()] *)
Definition strip (s : str) : str := rstrip (lstrip s).

(** Lines 48-54: the Month column after
    [.str.replace(r'[^\w\s]', '').str.replace(r'\s+', ' ').str.strip()]. *)
Definition clean_month (s : str) : str :=
  strip (collapse_whitespace (remove_punctuation s)).

Fixpoint ends_with (suffix s : str) : bool :=
  str_eqb suffix s ||
  match s with
  | [] => false
  | _ :: t => ends_with suffix t
  end.

Definition drop_last (n : nat) (s : str) : str := firstn (List.length s - n) s.

Definition newline : ascii := ascii_of_N 10.

(** [re.sub(r'\.0$', '', s)]: [$] matches at the end of the string and
    also just before a final line feed. *)
Definition remove_trailing_dot_zero (s : str) : str :=
  if ends_with (txt ".0") s then drop_last 2 s
  else if ends_with (txt ".0" ++ [newline]) s then drop_last 3 s ++ [newline]
  else s.

(** Line 57: the Year column. *)
Definition clean_year (s : str) : str := strip (remove_trailing_dot_zero s).

(** [.str.replace(',', '')] *)
Definition remove_commas (s : str) : str :=
  filter (fun c => negb (Ascii.eqb c ","%char)) s.

(** ** Dates *)

(** A [pd.Timestamp] parsed with [format='%B %Y']: the day is always 1 and
    the time midnight, so year and month carry all the information.  The
    representable range of the datetime64 dtype is not modelled. *)
Record Timestamp := mkTimestamp { year : Z; month : Z }.

Definition Timestamp_eqb (a b : Timestamp) : bool :=
  (Z.eqb (year a) (year b) && Z.eqb (month a) (month b))%bool.

Definition Timestamp_leb (a b : Timestamp) : bool :=
  (Z.ltb (year a) (year b)
   || (Z.eqb (year a) (year b) && Z.leb (month a) (month b)))%bool.

(** The alternatives of [%B], one per calendar month. *)
Definition month_names : list str :=
  [txt "january"; txt "february"; txt "march"; txt "april"; txt "may";
   txt "june"; txt "july"; txt "august"; txt "september"; txt "october";
   txt "november"; txt "december"].

(** Matching a literal without regard to case, as [re.IGNORECASE] does:
    what follows the literal is returned. *)
Fixpoint match_literal (lit s : str) : option str :=
  match lit, s with
  | [], _ => Some s
  | x :: lit', y :: s' =>
      if Ascii.eqb (lower x) (lower y) then match_literal lit' s' else None
  | _ :: _, [] => None
  end.

Fixpoint match_month (names : list str) (k : Z) (s : str) : option (Z * str) :=
  match names with
  | [] => None
  | n :: ns =>
      match match_literal n s with
      | Some rest => Some (k, rest)
      | None => match_month ns (k + 1) s
      end
  end.

Definition digit_value (c : ascii) : Z := Z.of_N (code c) - 48.

Fixpoint digits_value (acc : Z) (ds : str) : Z :=
  match ds with
  | [] => acc
  | c :: t => digits_value (acc * 10 + digit_value c) t
  end.

(** [%Y]: exactly four digits. *)
Definition match_year (s : str) : option Z :=
  match s with
  | [a; b; c; d] =>
      if forallb is_digit s then Some (digits_value 0 s) else None
  | _ => None
  end.

(** [pd.to_datetime(s, format='%B %Y', errors='coerce')] on one string:
    the whole string has to match a month name, whitespace ([\s+], as the
    space of the format is compiled) and a four-digit year; [None] is NaT. *)
Definition to_datetime (s : str) : option Timestamp :=
  match match_month month_names 1 s with
  | Some (m, rest) =>
      match rest with
      | c :: _ =>
          if is_space c
          then option_map (fun y => mkTimestamp y m) (match_year (lstrip rest))
          else None
      | [] => None
      end
  | None => None
  end.

(** ** Numbers *)

Inductive float64 :=
| Fin (q : Q)
| PInf
| NInf
| NaN.

Definition isna (x : float64) : bool :=
  match x with NaN => true | _ => false end.




Definition positive_infinity_if (b : bool) : float64 :=
  if b then PInf else NInf.

Definition fsub (x y : float64) : float64 :=
  match x, y with
  | NaN, _ | _, NaN => NaN
  | Fin a, Fin b => Fin (a - b)
  | Fin _, PInf => NInf
  | Fin _, NInf => PInf
  | PInf, PInf | NInf, NInf => NaN
  | PInf, _ => PInf
  | NInf, _ => NInf
  end.

Definition fmul (x y : float64) : float64 :=
  match x, y with
  | NaN, _ | _, NaN => NaN
  | Fin a, Fin b => Fin (a * b)
  | Fin a, PInf | PInf, Fin a =>
      if Qeq_bool a 0 then NaN else positive_infinity_if (Qle_bool 0 a)
  | Fin a, NInf | NInf, Fin a =>
      if Qeq_bool a 0 then NaN else positive_infinity_if (negb (Qle_bool 0 a))
  | PInf, PInf | NInf, NInf => PInf
  | PInf, NInf | NInf, PInf => NInf
  end.

(** numpy's true division: dividing by zero raises nothing, it yields an
    infinity, or NaN for 0/0. *)
Definition fdiv (x y : float64) : float64 :=
  match x, y with
  | NaN, _ | _, NaN => NaN
  | Fin a, Fin b =>
      if Qeq_bool b 0
      then (if Qeq_bool a 0 then NaN else positive_infinity_if (Qle_bool 0 a))
      else Fin (a / b)
  | Fin _, _ => Fin 0
  | PInf, Fin b => positive_infinity_if (Qle_bool 0 b)
  | NInf, Fin b => positive_infinity_if (negb (Qle_bool 0 b))
  | _, _ => NaN
  end.

(** Whitespace of the C tokenizer. *)
Definition is_space_c (c : ascii) : bool :=
  in_range 9 13 c || N.eqb (code c) 32.

Fixpoint skip_spaces (s : str) : str :=
  match s with
  | [] => []
  | c :: t => if is_space_c c then skip_spaces t else s
  end.

Fixpoint span_digits (s : str) : str * str :=
  match s with
  | [] => ([], [])
  | c :: t =>
      if is_digit c
      then (let (ds, rest) := span_digits t in (c :: ds, rest))
      else ([], s)
  end.

Definition read_sign (s : str) : bool * str :=
  match s with
  | c :: t =>
      if Ascii.eqb c "-"%char then (true, t)
      else if Ascii.eqb c "+"%char then (false, t)
      else (false, s)
  | [] => (false, s)
  end.

Definition signed (negative : bool) (z : Z) : Z :=
  if negative then (- z)%Z else z.

(** The exponent of a numeral, if one follows: [None] when the letter is
    not followed by digits. *)
Definition read_exponent (s : str) : option (Z * str) :=
  match s with
  | c :: t =>
      if Ascii.eqb (lower c) "e"%char
      then (let (negative, t1) := read_sign t in
            let (ds, rest) := span_digits t1 in
            match ds with
            | [] => None
            | _ => Some (signed negative (digits_value 0 ds), rest)
            end)
      else Some (0%Z, s)
  | [] => Some (0%Z, s)
  end.

(** [pd.to_numeric(s, errors='coerce')] on one string: a decimal numeral
    (sign, digits, fraction, exponent, blanks around it) is read as the
    rational it denotes and any other text becomes NaN.  pandas also reads
    the literals [inf] and [nan]; an infinity is not a quantity of the
    tables and the model coerces both literals like any other text. *)
Definition to_numeric (s : str) : float64 :=
  let (negative, s1) := read_sign (skip_spaces s) in
  let (int_part, s2) := span_digits s1 in
  let (frac_part, s3) :=
    match s2 with
    | c :: t => if Ascii.eqb c "."%char then span_digits t else ([], s2)
    | [] => ([], s2)
    end in
  match int_part ++ frac_part with
  | [] => NaN
  | mantissa =>
      match read_exponent s3 with
      | Some (e, s4) =>
          match skip_spaces s4 with
          | [] =>
              Fin (inject_Z (signed negative (digits_value 0 mantissa))
                   * Qpower (inject_Z 10) (e - Z.of_nat (List.length frac_part)))
          | _ => NaN
          end
      | None => NaN
      end
  end.

(** ** Frames *)

(** The frame [pd.read_csv(file_path, header=16)] returns: the labels of
    the header row and one list of cells per data row. *)
Record DataFrame := mkDataFrame {
  columns : list str;
  data : list (list str)
}.

(** A cleaned series: the frame [load_and_clean_data] returns.  Its rows
    are (Date, value) cells; a missing Date is NaT ([None]) and a missing
    value is NaN. *)
Record CleanFrame := mkCleanFrame {
  labels : list str;
  rows : list (option Timestamp * float64)
}.

(** [pd.DataFrame()] *)
Definition empty_frame : CleanFrame := mkCleanFrame [] [].

(** [df.empty]: some axis has length 0. *)
Definition empty (df : CleanFrame) : bool :=
  match labels df, rows df with
  | _ :: _, _ :: _ => false
  | _, _ => true
  end.

(** The merged table, column by column. *)
Record MergedFrame := mkMergedFrame {
  Date : list (option Timestamp);
  Sales_Total_Nominal : list float64;
  Inventories_Total_Nominal : list float64;
  Inventories_to_Sales_Ratio_Nominal : list float64;
  Sales_YoY_Growth : list float64
}.

Definition merged_empty (df : MergedFrame) : bool :=
  match Date df with [] => true | _ => false end.

(** The two value columns the script extracts. *)
Inductive value_column := SalesColumn | InventoriesColumn.

Definition label (c : value_column) : str :=
  match c with
  | SalesColumn => txt "Sales_Total_Nominal"
  | InventoriesColumn => txt "Inventories_Total_Nominal"
  end.

Definition Month_label : str := txt "Month".
Definition Year_label : str := txt "Year".
Definition Date_label : str := txt "Date".
Definition naics_total : str := txt "42".

(** ** Effects *)

Inductive exn :=
| FileNotFoundError
| EmptyDataError
| ParserError
| KeyError (missing : list str)
| AttributeError.

Inductive outcome (A : Type) :=
| Ret (a : A)
| Raise (e : exn).

Arguments Ret {A} a.
Arguments Raise {A} e.

Inductive message :=
| FileNotFoundMsg (file_path : str)
| EmptyOrInvalidMsg (file_path : str)
| LoadedMsg (n : nat) (file_path : str)
| StartingMsg
| SalesEmptyMsg
| InventoriesEmptyMsg
| AbortingMsg
| SavedMsg (file_path : str)
| GeneratingChartsMsg
| ChartsSavedMsg
| CompleteMsg
| NextStepMsg.

Inductive event :=
| Print (m : message)
| MakeDirs (path : str)
| ToCsv (path : str) (table : MergedFrame)
| SaveFig (path : str).

Definition trace := list event.

(** Computations that may raise and that extend the trace. *)
Definition M (A : Type) : Type := trace -> outcome A * trace.

Definition ret {A} (a : A) : M A := fun t => (Ret a, t).

Definition raise {A} (e : exn) : M A := fun t => (Raise e, t).

Definition bind {A B} (m : M A) (k : A -> M B) : M B :=
  fun t =>
    match m t with
    | (Ret a, t') => k a t'
    | (Raise e, t') => (Raise e, t')
    end.

Notation "x <- m ;; k" := (bind m (fun x => k))
  (at level 61, m at next level, right associativity).
Notation "m ;; k" := (bind m (fun _ => k))
  (at level 61, right associativity).

Definition emit (e : event) : M unit := fun t => (Ret tt, t ++ [e]).

Definition print (m : message) : M unit := emit (Print m).

(** The body of a [try]: its exception, if any, is handed to the
    [except] clauses. *)
Definition try {A} (m : M A) : M (outcome A) :=
  fun t => let (r, t') := m t in (Ret r, t').

Definition when (b : bool) (m : M unit) : M unit :=
  if b then m else ret tt.

(** What [pd.read_csv(path, header=16)] does for each path. *)
Definition filesystem := str -> outcome DataFrame.

Definition read_csv (fs : filesystem) (file_path : str) : M DataFrame :=
  fun t => (fs file_path, t).

(** ** Paths *)

Definition PROCESSED_DATA_PATH : str := txt "data/processed".
Definition CHARTS_PATH : str := txt "charts".
Definition SALES_FILE : str := txt "data/raw/Sales_Adjusted.csv".
Definition INVENTORIES_FILE : str := txt "data/raw/Inventories_Adjusted.csv".
Definition MERGED_OUTPUT_FILE : str :=
  txt "data/processed/merged_wts_data_nominal.csv".

(** ** Loading and cleaning one table *)

(** [df.rename(columns={'Month': 'Month', 'Year': 'Year', '42': column_name})]:
    labels that are not columns are ignored. *)
Definition rename (column_name : str) (df : DataFrame) : DataFrame :=
  mkDataFrame
    (map (fun c => if str_eqb c naics_total then column_name else c)
         (columns df))
    (data df).

(** The positions of the columns that carry a label, counted from [i]. *)
Fixpoint positions (l : str) (cols : list str) (i : nat) : list nat :=
  match cols with
  | [] => []
  | c :: t =>
      if str_eqb c l then i :: positions l t (S i) else positions l t (S i)
  end.

Definition has_column (df : DataFrame) (l : str) : bool :=
  match positions l (columns df) 0 with [] => false | _ => true end.

(** A cell as text: a field the row lacks was read as NaN. *)
Definition cell (row : list str) (i : nat) : str := nth i row (txt "nan").

(** [df[ls]] for a list of labels: KeyError names the labels that are not
    columns; a label carried by several columns selects them all. *)
Definition getitem_list (ls : list str) (df : DataFrame) : M DataFrame :=
  match filter (fun l => negb (has_column df l)) ls with
  | [] =>
      let idx := flat_map (fun l => positions l (columns df) 0) ls in
      ret (mkDataFrame (map (fun i => nth i (columns df) []) idx)
                       (map (fun row => map (cell row) idx) (data df)))
  | missing => raise (KeyError missing)
  end.

(** [df[l].astype(str).str]: one column gives a Series of strings; when
    several columns carry the label, [df[l]] is a frame, which has no
    [.str] accessor. *)
Definition getitem_str (l : str) (df : DataFrame) : M (list str) :=
  match positions l (columns df) 0 with
  | [] => raise (KeyError [l])
  | [i] => ret (map (fun row => cell row i) (data df))
  | _ => raise AttributeError
  end.

Fixpoint zip_with {A B C} (f : A -> B -> C) (xs : list A) (ys : list B)
  : list C :=
  match xs, ys with
  | x :: xs', y :: ys' => f x y :: zip_with f xs' ys'
  | _, _ => []
  end.

Definition notna_Date (r : option Timestamp * str) : bool :=
  match fst r with Some _ => true | None => false end.

Definition notna_value (r : option Timestamp * float64) : bool :=
  negb (isna (snd r)).

(** The order [sort_values('Date')] sorts by; NaT comes last. *)
Module DateOrder <: TotalLeBool.
Definition t := (option Timestamp * float64)%type.
Definition leb (a b : t) : bool :=
  match fst a, fst b with
  | Some x, Some y => Timestamp_leb x y
  | _, None => true
  | None, Some _ => false
  end.
Lemma leb_total : forall a b, leb a b = true \/ leb b a = true.
Proof.
  intros [[x|] ?] [[y|] ?]; unfold leb, Timestamp_leb; simpl; auto.
  lia.
Qed.
End DateOrder.

Module DateSort := Sort DateOrder.

(** [df.sort_values('Date')]; rows with equal dates keep their order here
    (pandas does not promise an order for them). *)
Definition sort_values_Date := DateSort.sort.

(** Lines 48-71 on the three selected columns. *)
Definition clean (Month Year value : list str)
  : list (option Timestamp * float64) :=
  let Month := map clean_month Month in
  let Year := map clean_year Year in
  let Date_Str := zip_with (fun m y => m ++ [space] ++ y) Month Year in
  let Date := map to_datetime Date_Str in
  let df_clean := filter notna_Date (combine Date value) in
  let df_clean :=
    map (fun r => (fst r, to_numeric (remove_commas (snd r)))) df_clean in
  let df_clean := filter notna_value df_clean in
  sort_values_Date df_clean.

Definition load_and_clean_data (fs : filesystem) (file_path : str)
    (column_name : value_column) : M CleanFrame :=
  read <- try (read_csv fs file_path) ;;
  match read with
  | Raise FileNotFoundError =>
      print (FileNotFoundMsg file_path) ;; ret empty_frame
  | Raise EmptyDataError =>
      print (EmptyOrInvalidMsg file_path) ;; ret empty_frame
  | Raise e => raise e
  | Ret df =>
      let df := rename (label column_name) df in
      df_clean <- getitem_list [Month_label; Year_label; label column_name] df ;;
      Month <- getitem_str Month_label df_clean ;;
      Year <- getitem_str Year_label df_clean ;;
      value <- getitem_str (label column_name) df_clean ;;
      let df_clean :=
        mkCleanFrame [Date_label; label column_name] (clean Month Year value) in
      print (LoadedMsg (List.length (rows df_clean)) file_path) ;;
      ret df_clean
  end.

(** ** Merging and the derived columns *)

(** Equality of join keys. *)
Definition Date_eqb (a b : option Timestamp) : bool :=
  match a, b with
  | Some x, Some y => Timestamp_eqb x y
  | None, None => true
  | _, _ => false
  end.

(** [pd.merge(left, right, on='Date', how='inner')]: the rows follow the
    order of the left keys, and a left row is paired with every right row
    of the same Date, in the order of the right frame. *)
Definition merge (left right : list (option Timestamp * float64))
  : list (option Timestamp * float64 * float64) :=
  flat_map
    (fun l =>
       map (fun r => (fst l, snd l, snd r))
           (filter (fun r => Date_eqb (fst l) (fst r)) right))
    left.

(** [s.shift(periods)]: the values move down and NaN fills the top. *)
Definition shift (periods : nat) (s : list float64) : list float64 :=
  firstn (List.length s) (repeat NaN periods ++ s).

(** [s.pct_change(periods)], that is [s / s.shift(periods) - 1]. *)
Definition pct_change (periods : nat) (s : list float64) : list float64 :=
  zip_with (fun x previous => fsub (fdiv x previous) (Fin 1))
           s (shift periods s).

(** Lines 104-111: the merged frame with its two derived columns. *)
Definition merged_frame (sales_df inventories_df : CleanFrame) : MergedFrame :=
  let merged_df := merge (rows sales_df) (rows inventories_df) in
  let Date := map (fun r => fst (fst r)) merged_df in
  let Sales := map (fun r => snd (fst r)) merged_df in
  let Inventories := map (fun r => snd r) merged_df in
  mkMergedFrame Date Sales Inventories
    (zip_with fdiv Inventories Sales)
    (map (fun x => fmul x (Fin 100)) (pct_change 12 Sales)).

Definition run_data_processing (fs : filesystem) : M (option MergedFrame) :=
  emit (MakeDirs PROCESSED_DATA_PATH) ;;
  emit (MakeDirs CHARTS_PATH) ;;
  print StartingMsg ;;
  sales_df <- load_and_clean_data fs SALES_FILE SalesColumn ;;
  inventories_df <- load_and_clean_data fs INVENTORIES_FILE InventoriesColumn ;;
  when (empty sales_df) (print SalesEmptyMsg) ;;
  when (empty inventories_df) (print InventoriesEmptyMsg) ;;
  if empty sales_df || empty inventories_df
  then print AbortingMsg ;; ret None
  else
    let merged_df := merged_frame sales_df inventories_df in
    emit (ToCsv MERGED_OUTPUT_FILE merged_df) ;;
    print (SavedMsg MERGED_OUTPUT_FILE) ;;
    ret (Some merged_df).

(** ** Charts and the entry point *)

Definition chart_files : list str :=
  [txt "charts/1_nominal_sales_trend.png";
   txt "charts/2_nominal_is_ratio_trend.png";
   txt "charts/3_yoy_sales_growth.png";
   txt "charts/4_sales_vs_inventories_levels.png"].

(** [plt.savefig] of the n-th chart. *)
Definition savefig (n : nat) : M unit := emit (SaveFig (nth n chart_files [])).

Definition generate_charts (df : MergedFrame) : M unit :=
  print GeneratingChartsMsg ;;
  savefig 0 ;;
  savefig 1 ;;
  savefig 2 ;;
  savefig 3 ;;
  print ChartsSavedMsg.

(** The [__main__] block. *)
Definition main (fs : filesystem) : M unit :=
  final_data_df <- run_data_processing fs ;;
  match final_data_df with
  | Some df =>
      if negb (merged_empty df)
      then generate_charts df ;; print CompleteMsg ;; print NextStepMsg
      else ret tt
  | None => ret tt
  end.

(** ** Observations on a trace *)

Definition writes_csv (e : event) : bool :=
  match e with ToCsv _ _ => true | _ => false end.

Definition saves_figure (e : event) : bool :=
  match e with SaveFig _ => true | _ => false end.

(** ** Order of dates *)

Definition Timestamp_le (a b : Timestamp) : Prop :=
  (year a < year b \/ (year a = year b /\ month a <= month b))%Z.

(** Two timestamps in ascending order; a NaT is in order with nothing. *)
Definition Date_le (a b : option Timestamp) : Prop :=
  match a, b with
  | Some x, Some y => Timestamp_le x y
  | _, _ => False
  end.

(** The Date column of a cleaned series. *)
Definition dates (df : CleanFrame) : list (option Timestamp) :=
  map fst (rows df).

(** The trace when the first table is read: lines 86-89 have run. *)
Definition started : trace :=
  [MakeDirs PROCESSED_DATA_PATH; MakeDirs CHARTS_PATH; Print StartingMsg].

(** ** Sample tables *)

Definition census_header : list str := [txt "Month"; txt "Year"; txt "42"].

Definition record (m y v : string) : list str := [txt m; txt y; txt v].

(** Fifteen months of sales: a year written as a float, a month without
    sales and a month label with a footnote. *)
Definition sample_sales : DataFrame :=
  mkDataFrame census_header
    [record "January" "2020" "500,000"; record "February" "2020.0" "400,000";
     record "March" "2020" "450,000"; record "April" "2020" "380,000";
     record "May" "2020" "410,000"; record "June" "2020" "460,000";
     record "July" "2020" "480,000"; record "August" "2020" "490,000";
     record "September" "2020" "505,000"; record "October" "2020" "515,000";
     record "November" "2020" "520,000"; record "December" "2020" "530,000";
     record "January" "2021" "550,000"; record "February" "2021" "0";
     record "March (p)" "2021" "560,000"].

Definition sample_inventories : DataFrame :=
  mkDataFrame census_header
    [record "January" "2020" "650,000"; record "February" "2020" "660,000";
     record "March" "2020" "655,000"; record "April" "2020" "640,000";
     record "May" "2020" "630,000"; record "June" "2020" "625,000";
     record "July" "2020" "628,000"; record "August" "2020" "632,000";
     record "September" "2020" "640,000"; record "October" "2020" "645,000";
     record "November" "2020" "650,000"; record "December" "2020" "655,000";
     record "January" "2021" "660,000"; record "February" "2021" "670,000"].

(** A disk that holds the given outcome for each of the two paths. *)
Definition disk (sales inventories : outcome DataFrame) : filesystem :=
  fun file_path =>
    if str_eqb file_path SALES_FILE then sales
    else if str_eqb file_path INVENTORIES_FILE then inventories
    else Raise FileNotFoundError.

Definition sample_disk : filesystem :=
  disk (Ret sample_sales) (Ret sample_inventories).

Definition returned {A} (default : A) (r : outcome A * trace) : A :=
  match fst r with
  | Ret a => a
  | Raise _ => default
  end.

Definition no_table : MergedFrame := mkMergedFrame [] [] [] [] [].

(** The merged table of the sample run. *)
Definition sample_merged : MergedFrame :=
  match returned None (run_data_processing sample_disk []) with
  | Some df => df
  | None => no_table
  end.

(** The rows of the worked example of the specification. *)
Definition abbreviated_rows : DataFrame :=
  mkDataFrame census_header
    [record "Jan" "2020.0" "1,234"; record "Feb" "2020" "bad"].

Definition full_name_rows : DataFrame :=
  mkDataFrame census_header
    [record "January" "2020.0" "1,234"; record "Feb" "2020" "bad"].

(** A table whose header already carries the label of the value column. *)
Definition relabelled_sales : DataFrame :=
  mkDataFrame [txt "Month"; txt "Year"; txt "Sales_Total_Nominal"]
    [record "January" "2020" "5"].

(** A table without the column of the total. *)
Definition sales_without_total : DataFrame :=
  mkDataFrame [txt "Month"; txt "Year"; txt "423"]
    [record "January" "2020" "5"].

(** A sales table that lists January 2020 twice, and an inventories table;
    the months of both are January and February 2020. *)
Definition repeated_month_sales : DataFrame :=
  mkDataFrame census_header
    [record "December" "2019" "90"; record "January" "2020" "100";
     record "January" "2020" "110"; record "February" "2020" "120"].

Definition three_month_inventories : DataFrame :=
  mkDataFrame census_header
    [record "January" "2020" "200"; record "February" "2020" "210";
     record "March" "2020" "220"].

(** The same sales table without the repeated month. *)
Definition three_month_sales : DataFrame :=
  mkDataFrame census_header
    [record "December" "2019" "90"; record "January" "2020" "100";
     record "February" "2020" "120"].

(** The file of a value column. *)
Definition file_of (column_name : value_column) : str :=
  match column_name with
  | SalesColumn => SALES_FILE
  | InventoriesColumn => INVENTORIES_FILE
  end.

(** The cleaned series of a table. *)
Definition cleaned (df : DataFrame) (column_name : value_column) : CleanFrame :=
  returned empty_frame
    (load_and_clean_data (fun _ => Ret df) (file_of column_name) column_name []).

(** ** Notions used in the statements *)

(** A text in which whitespace only occurs as single spaces;
    [after_space] tells that a space precedes the text. *)
Fixpoint collapsed (after_space : bool) (s : str) : bool :=
  match s with
  | [] => true
  | c :: t =>
      if is_space c
      then negb after_space && Ascii.eqb c space && collapsed true t
      else collapsed false t
  end.

(** An exception raised while the columns are selected. *)
Definition selection_error (e : exn) : Prop :=
  (exists missing, e = KeyError missing) \/ e = AttributeError.

(** What the reports of lines 94-97 add to the trace. *)
Definition emptiness_reports (sales_df inventories_df : CleanFrame) : trace :=
  (if empty sales_df then [Print SalesEmptyMsg] else []) ++
  (if empty inventories_df then [Print InventoriesEmptyMsg] else []).

(** The events of [generate_charts] and of the two final prints. *)
Definition charting : trace :=
  [Print GeneratingChartsMsg] ++ map SaveFig chart_files ++
  [Print ChartsSavedMsg; Print CompleteMsg; Print NextStepMsg].

(** The header lacks a column that line 45 selects. *)
Definition lacks_selected_column (df : DataFrame) (column_name : value_column)
  : Prop :=
  ~ In Month_label (columns df) \/
  ~ In Year_label (columns df) \/
  (~ In naics_total (columns df) /\ ~ In (label column_name) (columns df)).

(** Equality of dates is decidable. *)
Definition Date_eq_dec (a b : option Timestamp) : {a = b} + {a <> b}.
Proof. repeat decide equality. Defined.

(** How many rows of a Date column carry a date. *)
Definition occurrences (d : option Timestamp) (column : list (option Timestamp))
  : nat :=
  count_occ Date_eq_dec column d.

(** A table with a column "42" and a column that already carries the label
    of the value column. *)
Definition doubly_labelled_sales : DataFrame :=
  mkDataFrame
    [txt "Month"; txt "Year"; txt "Sales_Total_Nominal"; txt "42"]
    [[txt "January"; txt "2020"; txt "5"; txt "6"]].

(** Two tables without a common month. *)
Definition winter_sales : DataFrame :=
  mkDataFrame census_header
    [record "December" "2019" "90"; record "January" "2020" "100"].

Definition summer_inventories : DataFrame :=
  mkDataFrame census_header
    [record "June" "2020" "200"; record "July" "2020" "210"].

(** The number of the calendar month that a text names, in any letter
    case and with nothing after the name. *)
Definition month_number (s : str) : option Z :=
  match match_month month_names 1 s with
  | Some (k, []) => Some k
  | _ => None
  end.


(** * Properties *)

Open Scope nat_scope.

(** ** Lists *)

Section Lists.

Variable A : Type.
Variables R R' : A -> A -> Prop.

Lemma filter_all (p : A -> bool) (l : list A) :
  Forall (fun x => p x = true) l -> filter p l = l.
Proof.
  induction 1 as [|x l Hx _ IH]; simpl; [reflexivity|].
  now rewrite Hx, IH.
Qed.

Lemma StronglySorted_weaken l :
  (forall a b, In a l -> In b l -> R a b -> R' a b) ->
  StronglySorted R l -> StronglySorted R' l.
Proof.
  intros W H. induction H as [|a l Hl IH Ha]; constructor.
  - apply IH. intros x y Hx Hy. apply W; now right.
  - rewrite Forall_forall in *. intros b Hb.
    apply W; [now left | now right | now apply Ha].
Qed.

Lemma StronglySorted_app l1 l2 :
  StronglySorted R l1 -> StronglySorted R l2 ->
  (forall a b, In a l1 -> In b l2 -> R a b) ->
  StronglySorted R (l1 ++ l2).
Proof.
  induction 1 as [|a l1 H1 IH Ha]; intros H2 H; simpl; [exact H2|].
  constructor.
  - apply IH; [exact H2|]. intros x y Hx Hy. apply H; [now right | exact Hy].
  - apply Forall_app. split; [exact Ha|].
    apply Forall_forall. intros b Hb. apply H; [now left | exact Hb].
Qed.

Lemma Sorted_consecutive l n a b :
  Sorted R l ->
  nth_error l n = Some a -> nth_error l (S n) = Some b -> R a b.
Proof.
  intros H; revert n; induction H as [|x l Hl IH Hx]; intros n Ha Hb.
  - now destruct n.
  - destruct n as [|n]; simpl in *.
    + injection Ha as ->. destruct l as [|y l]; [discriminate|].
      injection Hb as ->. now inversion Hx.
    + now apply (IH n).
Qed.

End Lists.

(** ** Month labels *)

Lemma collapse_from_collapsed b s : collapsed b (collapse_from b s) = true.
Proof.
  revert b; induction s as [|c t IH]; intros b; simpl; [reflexivity|].
  destruct (is_space c) eqn:Hc.
  - destruct b; simpl; [apply IH|].
    change (is_space space) with true; simpl. apply IH.
  - simpl. rewrite Hc. apply IH.
Qed.

Lemma collapsed_fixed b s : collapsed b s = true -> collapse_from b s = s.
Proof.
  revert b; induction s as [|c t IH]; intros b H; simpl in *; [reflexivity|].
  destruct (is_space c).
  - apply andb_prop in H as [H Ht]. apply andb_prop in H as [Hb Hc].
    apply Ascii.eqb_eq in Hc. destruct b; [discriminate|].
    subst c. now rewrite (IH true Ht).
  - now rewrite (IH false H).
Qed.

Lemma collapsed_lstrip b s :
  collapsed b s = true -> forall b', collapsed b' (lstrip s) = true.
Proof.
  revert b; induction s as [|c t IH]; intros b H b'; simpl in *; [reflexivity|].
  destruct (is_space c) eqn:Hc.
  - apply andb_prop in H as [_ Ht]. now apply (IH true).
  - simpl. now rewrite Hc.
Qed.

Lemma collapsed_rstrip b s :
  collapsed b s = true -> collapsed b (rstrip s) = true.
Proof.
  revert b; induction s as [|c t IH]; intros b H; simpl in *; [reflexivity|].
  destruct (is_space c) eqn:Hc.
  - apply andb_prop in H as [H Ht].
    specialize (IH true Ht).
    destruct (rstrip t) as [|d r]; [reflexivity|].
    simpl collapsed at 1. rewrite Hc. simpl in *. now rewrite H, IH.
  - specialize (IH false H).
    destruct (rstrip t) as [|d r]; simpl; rewrite Hc; [reflexivity|].
    exact IH.
Qed.

Lemma rstrip_idempotent s : rstrip (rstrip s) = rstrip s.
Proof.
  induction s as [|c t IH]; simpl; [reflexivity|].
  destruct (rstrip t) as [|d r] eqn:Hr.
  - destruct (is_space c) eqn:Hc; simpl; [reflexivity|now rewrite Hc].
  - change (rstrip (c :: d :: r)) with
      (match rstrip (d :: r) with
       | [] => if is_space c then [] else [c]
       | x :: r' => c :: x :: r'
       end).
    now rewrite IH.
Qed.

Lemma lstrip_head s :
  lstrip s = [] \/ exists c t, lstrip s = c :: t /\ is_space c = false.
Proof.
  induction s as [|c t IH]; simpl; [now left|].
  destruct (is_space c) eqn:Hc; [exact IH|].
  right. now exists c, t.
Qed.

Lemma lstrip_rstrip_lstrip s : lstrip (rstrip (lstrip s)) = rstrip (lstrip s).
Proof.
  destruct (lstrip_head s) as [-> | (c & t & -> & Hc)]; [reflexivity|].
  simpl. destruct (rstrip t); simpl; rewrite ?Hc; simpl; now rewrite ?Hc.
Qed.

Lemma strip_idempotent s : strip (strip s) = strip s.
Proof.
  unfold strip. now rewrite lstrip_rstrip_lstrip, rstrip_idempotent.
Qed.

Lemma Forall_collapse_from b s :
  Forall (fun c => word_or_space c = true) s ->
  Forall (fun c => word_or_space c = true) (collapse_from b s).
Proof.
  intros H; revert b; induction H as [|c t Hc _ IH]; intros b; simpl; auto.
  destruct (is_space c); [destruct b|]; auto.
Qed.

Lemma Forall_lstrip (P : ascii -> Prop) s : Forall P s -> Forall P (lstrip s).
Proof.
  induction 1 as [|c t Hc Ht IH]; simpl; auto.
  destruct (is_space c); auto.
Qed.

Lemma Forall_rstrip (P : ascii -> Prop) s : Forall P s -> Forall P (rstrip s).
Proof.
  induction 1 as [|c t Hc Ht IH]; simpl; auto.
  destruct (rstrip t); [destruct (is_space c)|]; auto.
Qed.

Lemma clean_month_kept s :
  Forall (fun c => word_or_space c = true) (clean_month s).
Proof.
  unfold clean_month, strip, collapse_whitespace, remove_punctuation.
  apply Forall_rstrip, Forall_lstrip, Forall_collapse_from.
  apply Forall_forall. intros c Hc. now apply filter_In in Hc.
Qed.

Lemma clean_month_collapsed s : collapsed false (clean_month s) = true.
Proof.
  unfold clean_month, strip, collapse_whitespace.
  apply collapsed_rstrip, (collapsed_lstrip false), collapse_from_collapsed.
Qed.

(** C8. Cleaning a month label is idempotent: for every string, cleaning
    the already cleaned label (punctuation removed, whitespace runs
    collapsed to one space, edges trimmed) returns it unchanged. *)
Theorem clean_month_idempotent (s : str) :
  clean_month (clean_month s) = clean_month s.
Proof.
  unfold clean_month at 1.
  unfold remove_punctuation.
  rewrite (filter_all _ _ _ (clean_month_kept s)).
  unfold collapse_whitespace.
  rewrite (collapsed_fixed _ _ (clean_month_collapsed s)).
  unfold clean_month. apply strip_idempotent.
Qed.

(** ** Loading *)

Lemma str_eqb_eq (a b : str) : str_eqb a b = true <-> a = b.
Proof.
  revert b; induction a as [|x a IH]; intros [|y b]; simpl;
    try (split; [discriminate | congruence]); [tauto|].
  rewrite andb_true_iff, Ascii.eqb_eq, IH.
  split; [intros [-> ->]; reflexivity | intros [= -> ->]; auto].
Qed.

Lemma str_eqb_refl (a : str) : str_eqb a a = true.
Proof. now apply str_eqb_eq. Qed.

Ltac run_step := cbv beta iota zeta delta [ret raise].

Ltac selection_fails :=
  left; eexists; split; [|reflexivity]; first [now right | left; eauto].

(** What a call of [load_and_clean_data] does, by what [read_csv] finds. *)
Lemma load_and_clean_data_cases fs file_path column_name t :
  match fs file_path with
  | Raise FileNotFoundError =>
      load_and_clean_data fs file_path column_name t
      = (Ret empty_frame, t ++ [Print (FileNotFoundMsg file_path)])
  | Raise EmptyDataError =>
      load_and_clean_data fs file_path column_name t
      = (Ret empty_frame, t ++ [Print (EmptyOrInvalidMsg file_path)])
  | Raise e => load_and_clean_data fs file_path column_name t = (Raise e, t)
  | Ret df =>
      (exists e, selection_error e /\
         load_and_clean_data fs file_path column_name t = (Raise e, t)) \/
      (exists Month Year value,
         let cleaned := clean Month Year value in
         load_and_clean_data fs file_path column_name t
         = (Ret (mkCleanFrame [Date_label; label column_name] cleaned),
            t ++ [Print (LoadedMsg (List.length cleaned) file_path)]))
  end.
Proof.
  unfold load_and_clean_data, bind, try, read_csv.
  destruct (fs file_path) as [df|e]; [|destruct e; reflexivity].
  unfold getitem_list.
  destruct (filter _ _) as [|l missing].
  - unfold getitem_str.
    set (df_clean := mkDataFrame _ _).
    run_step.
    destruct (positions Month_label (columns df_clean) 0) as [|i [|? ?]];
      run_step; [selection_fails | | selection_fails].
    destruct (positions Year_label (columns df_clean) 0) as [|j [|? ?]];
      run_step; [selection_fails | | selection_fails].
    destruct (positions (label column_name) (columns df_clean) 0) as [|k [|? ?]];
      run_step; [selection_fails | | selection_fails].
    right. do 3 eexists. reflexivity.
  - selection_fails.
Qed.

(** A frame that [load_and_clean_data] returns is [pd.DataFrame()] or the
    outcome of the cleaning of three columns. *)
Lemma load_and_clean_data_returns fs file_path column_name t df t' :
  load_and_clean_data fs file_path column_name t = (Ret df, t') ->
  (exists m, t' = t ++ [Print m]) /\
  (df = empty_frame \/
   exists Month Year value,
     df = mkCleanFrame [Date_label; label column_name] (clean Month Year value)).
Proof.
  intros H.
  pose proof (load_and_clean_data_cases fs file_path column_name t) as C.
  destruct (fs file_path) as [raw|e].
  - destruct C as [(e & _ & C) | (M' & Y & V & C)]; rewrite C in H.
    + discriminate.
    + injection H as <- <-. split; [eauto|]. right. eauto.
  - destruct e; rewrite C in H; try discriminate;
      injection H as <- <-; split; eauto.
Qed.



(** ** The worked example *)

(** The rows of the example with the abbreviated label "Jan": "Jan 2020"
    is not a full month name followed by a year, the row gets NaT and is
    dropped like the other one, and no row is left. *)
Lemma abbreviated_month_leaves_no_row :
  load_and_clean_data (disk (Ret abbreviated_rows) (Ret sample_inventories))
    SALES_FILE SalesColumn []
  = (Ret (mkCleanFrame [Date_label; label SalesColumn] []),
     [Print (LoadedMsg 0 SALES_FILE)])
  /\ ~ (exists df t,
          load_and_clean_data
            (disk (Ret abbreviated_rows) (Ret sample_inventories))
            SALES_FILE SalesColumn [] = (Ret df, t)
          /\ rows df = [(Some (mkTimestamp 2020 1), Fin 1234)]).
Proof.
  assert (E : load_and_clean_data
                (disk (Ret abbreviated_rows) (Ret sample_inventories))
                SALES_FILE SalesColumn []
              = (Ret (mkCleanFrame [Date_label; label SalesColumn] []),
                 [Print (LoadedMsg 0 SALES_FILE)])) by (vm_compute; reflexivity).
  split; [exact E|].
  intros (df & t & H & R). rewrite E in H. injection H as <- _. discriminate R.
Qed.

(** C2, amended. For the input rows [("January", "2020.0", "1,234");
    ("Feb", "2020", "bad")] the cleaned series has exactly one row, with
    Date 2020-01-01 and value 1234: month and year are joined and parsed as
    a full month name and a four-digit year, the row that does not parse is
    dropped, and the commas are taken out of the value before it is read. *)
Theorem full_month_name_example :
  load_and_clean_data (disk (Ret full_name_rows) (Ret sample_inventories))
    SALES_FILE SalesColumn []
  = (Ret (mkCleanFrame [Date_label; label SalesColumn]
            [(Some (mkTimestamp 2020 1), Fin 1234)]),
     [Print (LoadedMsg 1 SALES_FILE)]).
Proof. vm_compute. reflexivity. Qed.

(** ** The cleaned series *)

Lemma sort_values_Date_In r l : In r (sort_values_Date l) <-> In r l.
Proof.
  pose proof (DateSort.Permuted_sort l) as P.
  split; intros H.
  - eapply Permutation_in; [apply Permutation_sym, P | exact H].
  - eapply Permutation_in; [exact P | exact H].
Qed.

Lemma clean_notna Month Year value r :
  In r (clean Month Year value) -> fst r <> None /\ isna (snd r) = false.
Proof.
  unfold clean. rewrite sort_values_Date_In, filter_In, in_map_iff.
  intros [(r0 & <- & H0) Hv].
  apply filter_In in H0 as [_ Hd].
  unfold notna_value in Hv. unfold notna_Date in Hd. simpl in *.
  split; [destruct (fst r0); [discriminate | discriminate Hd]|].
  now apply negb_true_iff in Hv.
Qed.

Lemma DateOrder_leb_trans :
  Transitive (fun a b => is_true (DateOrder.leb a b)).
Proof.
  intros [[x|] ?] [[y|] ?] [[z|] ?];
    unfold is_true, DateOrder.leb, Timestamp_leb; simpl; auto; try discriminate.
  lia.
Qed.

Lemma StronglySorted_map (A B : Type) (f : A -> B) (R : B -> B -> Prop) l :
  StronglySorted (fun a b => R (f a) (f b)) l -> StronglySorted R (map f l).
Proof.
  induction 1 as [|a l Hl IH Ha]; simpl; constructor; [exact IH|].
  rewrite Forall_forall in *. intros b Hb.
  apply in_map_iff in Hb as (x & <- & Hx). now apply Ha.
Qed.

Lemma leb_Date_le (a b : option Timestamp * float64) :
  fst a <> None -> fst b <> None ->
  DateOrder.leb a b = true -> Date_le (fst a) (fst b).
Proof.
  destruct a as [[x|] ?], b as [[y|] ?]; simpl; try congruence.
  intros _ _. unfold DateOrder.leb, Timestamp_leb, Timestamp_le. simpl. lia.
Qed.

Lemma clean_sorted Month Year value :
  StronglySorted Date_le (map fst (clean Month Year value)).
Proof.
  apply StronglySorted_map.
  apply StronglySorted_weaken
    with (R := fun a b => is_true (DateOrder.leb a b)).
  - intros a b Ha Hb. apply leb_Date_le.
    + now apply clean_notna in Ha.
    + now apply clean_notna in Hb.
  - unfold clean. apply DateSort.StronglySorted_sort, DateOrder_leb_trans.
Qed.

(** C7. Whatever the file holds, every row of the series that
    [load_and_clean_data] returns has a Date that is not NaT and a value
    that is not NaN, and the rows are in ascending order of Date (the
    series may have no row at all). *)
Theorem cleaned_series_valid_and_sorted
    fs file_path column_name t df t' :
  load_and_clean_data fs file_path column_name t = (Ret df, t') ->
  Forall (fun r => fst r <> None /\ isna (snd r) = false) (rows df) /\
  StronglySorted Date_le (dates df).
Proof.
  intros H. apply load_and_clean_data_returns in H as [_ H].
  destruct H as [-> | (M' & Y & V & ->)]; simpl.
  - split; constructor.
  - split; [|apply clean_sorted].
    apply Forall_forall. intros r. apply clean_notna.
Qed.

Lemma cleaned_sample_sales_valid_and_sorted :
  let df := returned empty_frame
              (load_and_clean_data sample_disk SALES_FILE SalesColumn []) in
  Forall (fun r => fst r <> None /\ isna (snd r) = false) (rows df) /\
  StronglySorted Date_le (dates df).
Proof.
  apply (cleaned_series_valid_and_sorted sample_disk SALES_FILE SalesColumn []
           (returned empty_frame
              (load_and_clean_data sample_disk SALES_FILE SalesColumn []))
           (snd (load_and_clean_data sample_disk SALES_FILE SalesColumn []))).
  vm_compute. reflexivity.
Defined.

(** ** The run as a whole *)

Lemma run_data_processing_unfold fs t :
  run_data_processing fs t =
  match load_and_clean_data fs SALES_FILE SalesColumn (t ++ started) with
  | (Raise e, t1) => (Raise e, t1)
  | (Ret sales_df, t1) =>
      match load_and_clean_data fs INVENTORIES_FILE InventoriesColumn t1 with
      | (Raise e, t2) => (Raise e, t2)
      | (Ret inventories_df, t2) =>
          let t3 := t2 ++ emptiness_reports sales_df inventories_df in
          if empty sales_df || empty inventories_df
          then (Ret None, t3 ++ [Print AbortingMsg])
          else
            let merged_df := merged_frame sales_df inventories_df in
            (Ret (Some merged_df),
             t3 ++ [ToCsv MERGED_OUTPUT_FILE merged_df;
                    Print (SavedMsg MERGED_OUTPUT_FILE)])
      end
  end.
Proof.
  unfold run_data_processing, bind, print, emit, started.
  replace (((t ++ [MakeDirs PROCESSED_DATA_PATH]) ++ [MakeDirs CHARTS_PATH])
           ++ [Print StartingMsg])
    with (t ++ [MakeDirs PROCESSED_DATA_PATH; MakeDirs CHARTS_PATH;
                Print StartingMsg])
    by (now rewrite <- !app_assoc).
  destruct (load_and_clean_data fs SALES_FILE SalesColumn _)
    as [[sales_df|e] t1]; [|reflexivity].
  destruct (load_and_clean_data fs INVENTORIES_FILE InventoriesColumn t1)
    as [[inventories_df|e] t2]; [|reflexivity].
  unfold emptiness_reports, when, ret.
  destruct (empty sales_df), (empty inventories_df); simpl;
    rewrite <- ?app_assoc, ?app_nil_r; reflexivity.
Qed.

Lemma main_unfold fs t :
  main fs t =
  match run_data_processing fs t with
  | (Raise e, t') => (Raise e, t')
  | (Ret None, t') => (Ret tt, t')
  | (Ret (Some df), t') =>
      (Ret tt, if merged_empty df then t' else t' ++ charting)
  end.
Proof.
  unfold main, bind.
  destruct (run_data_processing fs t) as [[[df|]|e] t']; try reflexivity.
  destruct (merged_empty df); [reflexivity|].
  unfold generate_charts, savefig, print, emit, bind, charting. simpl.
  now rewrite <- !app_assoc.
Qed.

(** ** Missing columns *)

Lemma has_column_false df l : has_column df l = false <-> ~ In l (columns df).
Proof.
  unfold has_column. generalize 0%nat.
  induction (columns df) as [|c cols IH]; intros i; simpl; [tauto|].
  destruct (str_eqb c l) eqn:E.
  - apply str_eqb_eq in E. split; [discriminate | intros H; exfalso; auto].
  - rewrite IH. split; [intros H [->|]; auto | tauto].
    now rewrite str_eqb_refl in E.
Qed.

Lemma rename_keeps_missing column_name df l :
  l <> label column_name -> ~ In l (columns df) ->
  ~ In l (columns (rename (label column_name) df)).
Proof.
  intros Hl H. simpl. rewrite in_map_iff. intros (c & Hc & Hin).
  destruct (str_eqb c naics_total); congruence.
Qed.

Lemma rename_creates_no_label column_name df :
  ~ In naics_total (columns df) -> ~ In (label column_name) (columns df) ->
  ~ In (label column_name) (columns (rename (label column_name) df)).
Proof.
  intros H42 H. simpl. rewrite in_map_iff. intros (c & Hc & Hin).
  destruct (str_eqb c naics_total) eqn:E; [|congruence].
  apply str_eqb_eq in E. congruence.
Qed.

Lemma getitem_list_KeyError ls df l t :
  In l ls -> ~ In l (columns df) ->
  exists missing, getitem_list ls df t = (Raise (KeyError missing), t).
Proof.
  intros Hl H. unfold getitem_list.
  destruct (filter _ ls) as [|m ms] eqn:F; [|now exists (m :: ms)].
  exfalso.
  assert (In l (filter (fun l => negb (has_column df l)) ls)) as Hin.
  { apply filter_In. split; [exact Hl|].
    apply negb_true_iff. now apply has_column_false. }
  rewrite F in Hin. exact Hin.
Qed.

Lemma load_and_clean_data_KeyError fs file_path column_name df t :
  fs file_path = Ret df ->
  lacks_selected_column df column_name ->
  exists missing,
    load_and_clean_data fs file_path column_name t
    = (Raise (KeyError missing), t).
Proof.
  intros Hfs Hlack.
  assert (exists l, In l [Month_label; Year_label; label column_name] /\
                    ~ In l (columns (rename (label column_name) df)))
    as (l & Hl & Hmiss).
  { destruct Hlack as [H | [H | [H42 H]]].
    - exists Month_label. split; [simpl; auto|].
      apply rename_keeps_missing; [destruct column_name; discriminate | exact H].
    - exists Year_label. split; [simpl; auto|].
      apply rename_keeps_missing; [destruct column_name; discriminate | exact H].
    - exists (label column_name). split; [simpl; auto|].
      now apply rename_creates_no_label. }
  destruct (getitem_list_KeyError _ _ _ t Hl Hmiss) as (missing & G).
  exists missing.
  unfold load_and_clean_data, bind, try, read_csv. rewrite Hfs.
  now rewrite G.
Qed.

(** A header without "42" whose third column already carries the label
    of the value column: nothing is renamed, the selection of line 45
    succeeds, the row is loaded and the script runs to its end. *)
Lemma relabelled_header_loads_without_total :
  ~ In naics_total (columns relabelled_sales) /\
  load_and_clean_data (disk (Ret relabelled_sales) (Ret sample_inventories))
    SALES_FILE SalesColumn []
  = (Ret (mkCleanFrame [Date_label; label SalesColumn]
            [(Some (mkTimestamp 2020 1), Fin 5)]),
     [Print (LoadedMsg 1 SALES_FILE)]) /\
  fst (main (disk (Ret relabelled_sales) (Ret sample_inventories)) []) = Ret tt.
Proof.
  split; [|split; vm_compute; reflexivity].
  intros [H|[H|[H|[]]]]; discriminate H.
Qed.

(** C9, amended. When the file is read but its header has no "Month"
    column, or no "Year" column, or neither a "42" column nor a column
    that already carries the label of the value column, the selection of
    the three columns raises KeyError: [load_and_clean_data] returns no
    frame, no handler catches the exception, and it ends the run, whether
    the table is the sales table or (the sales table being loaded) the
    inventories table. *)
Theorem missing_column_raises_KeyError fs file_path column_name df :
  fs file_path = Ret df ->
  lacks_selected_column df column_name ->
  (forall t, exists missing,
      load_and_clean_data fs file_path column_name t
      = (Raise (KeyError missing), t)) /\
  (file_path = SALES_FILE -> column_name = SalesColumn ->
   exists missing, main fs [] = (Raise (KeyError missing), started)) /\
  (file_path = INVENTORIES_FILE -> column_name = InventoriesColumn ->
   forall sales_df t1,
     load_and_clean_data fs SALES_FILE SalesColumn started = (Ret sales_df, t1) ->
     exists missing, main fs [] = (Raise (KeyError missing), t1)).
Proof.
  intros Hfs Hlack. split; [|split].
  - intros t. now apply load_and_clean_data_KeyError with (df := df).
  - intros -> ->.
    destruct (load_and_clean_data_KeyError _ _ _ _ started Hfs Hlack)
      as (missing & L).
    exists missing.
    rewrite main_unfold, run_data_processing_unfold. simpl. now rewrite L.
  - intros -> -> sales_df t1 Hsales.
    destruct (load_and_clean_data_KeyError _ _ _ _ t1 Hfs Hlack)
      as (missing & L).
    exists missing.
    rewrite main_unfold, run_data_processing_unfold. simpl.
    now rewrite Hsales, L.
Qed.

Lemma sales_without_total_raises_KeyError :
  let fs := disk (Ret sales_without_total) (Ret sample_inventories) in
  (forall t, exists missing,
      load_and_clean_data fs SALES_FILE SalesColumn t
      = (Raise (KeyError missing), t)) /\
  (SALES_FILE = SALES_FILE -> SalesColumn = SalesColumn ->
   exists missing, main fs [] = (Raise (KeyError missing), started)) /\
  (SALES_FILE = INVENTORIES_FILE -> SalesColumn = InventoriesColumn ->
   forall sales_df t1,
     load_and_clean_data fs SALES_FILE SalesColumn started = (Ret sales_df, t1) ->
     exists missing, main fs [] = (Raise (KeyError missing), t1)).
Proof.
  apply (missing_column_raises_KeyError
           (disk (Ret sales_without_total) (Ret sample_inventories))
           SALES_FILE SalesColumn sales_without_total).
  - reflexivity.
  - right. right. split; intros [H|[H|[H|[]]]]; discriminate H.
Defined.

(** ** The check of the two series *)

Lemma loads_write_nothing fs sales_df t1 inventories_df t2 :
  load_and_clean_data fs SALES_FILE SalesColumn started = (Ret sales_df, t1) ->
  load_and_clean_data fs INVENTORIES_FILE InventoriesColumn t1
  = (Ret inventories_df, t2) ->
  existsb writes_csv t2 = false /\ existsb saves_figure t2 = false.
Proof.
  intros H1 H2.
  apply load_and_clean_data_returns in H1 as [(m1 & ->) _].
  apply load_and_clean_data_returns in H2 as [(m2 & ->) _].
  now rewrite !existsb_app.
Qed.

(** C5. When one of the two cleaned series is empty, [run_data_processing]
    reports each empty series, prints that it aborts and returns None; the
    run ends there, with no table written and no figure saved.  It is the
    only stop of the pipeline: with two series that are not empty the
    merged table is returned and written. *)
Theorem empty_series_aborts_the_run fs sales_df t1 inventories_df t2 :
  load_and_clean_data fs SALES_FILE SalesColumn started = (Ret sales_df, t1) ->
  load_and_clean_data fs INVENTORIES_FILE InventoriesColumn t1
  = (Ret inventories_df, t2) ->
  let t' := (t2 ++ emptiness_reports sales_df inventories_df)
            ++ [Print AbortingMsg] in
  (empty sales_df = true \/ empty inventories_df = true ->
   run_data_processing fs [] = (Ret None, t') /\
   main fs [] = (Ret tt, t') /\
   existsb writes_csv t' = false /\
   existsb saves_figure t' = false) /\
  (empty sales_df = false /\ empty inventories_df = false ->
   exists merged_df t'',
     run_data_processing fs [] = (Ret (Some merged_df), t'') /\
     In (ToCsv MERGED_OUTPUT_FILE merged_df) t'').
Proof.
  intros H1 H2 t'.
  pose proof (run_data_processing_unfold fs []) as R.
  simpl app in R. rewrite H1, H2 in R. cbv zeta in R.
  destruct (loads_write_nothing _ _ _ _ _ H1 H2) as [Hcsv Hfig].
  split.
  - intros Hempty.
    assert (empty sales_df || empty inventories_df = true) as E
      by (apply orb_true_iff; exact Hempty).
    rewrite E in R. fold t' in R.
    split; [exact R|]. split; [now rewrite main_unfold, R|].
    unfold t', emptiness_reports. rewrite !existsb_app, Hcsv, Hfig.
    destruct (empty sales_df), (empty inventories_df); auto.
  - intros [E1 E2]. rewrite E1, E2 in R. simpl in R.
    do 2 eexists. split; [exact R|].
    apply in_or_app. right. now left.
Qed.

Lemma missing_sales_file_aborts_the_run :
  let fs := disk (Raise FileNotFoundError) (Ret sample_inventories) in
  let inventories_df :=
    returned empty_frame
      (load_and_clean_data fs INVENTORIES_FILE InventoriesColumn []) in
  let t' := [MakeDirs PROCESSED_DATA_PATH; MakeDirs CHARTS_PATH;
             Print StartingMsg; Print (FileNotFoundMsg SALES_FILE);
             Print (LoadedMsg 14 INVENTORIES_FILE);
             Print SalesEmptyMsg; Print AbortingMsg] in
  (empty empty_frame = true \/ empty inventories_df = true ->
   run_data_processing fs [] = (Ret None, t') /\
   main fs [] = (Ret tt, t') /\
   existsb writes_csv t' = false /\
   existsb saves_figure t' = false) /\
  (empty empty_frame = false /\ empty inventories_df = false ->
   exists merged_df t'',
     run_data_processing fs [] = (Ret (Some merged_df), t'') /\
     In (ToCsv MERGED_OUTPUT_FILE merged_df) t'').
Proof.
  apply (empty_series_aborts_the_run
           (disk (Raise FileNotFoundError) (Ret sample_inventories))
           empty_frame (started ++ [Print (FileNotFoundMsg SALES_FILE)])
           (returned empty_frame
              (load_and_clean_data
                 (disk (Raise FileNotFoundError) (Ret sample_inventories))
                 INVENTORIES_FILE InventoriesColumn []))
           (started ++ [Print (FileNotFoundMsg SALES_FILE);
                        Print (LoadedMsg 14 INVENTORIES_FILE)])).
  - reflexivity.
  - vm_compute. reflexivity.
Defined.

(** ** The merged table *)

Lemma run_data_processing_returns fs t merged_df t' :
  run_data_processing fs t = (Ret (Some merged_df), t') ->
  exists sales_df t1 inventories_df t2,
    load_and_clean_data fs SALES_FILE SalesColumn (t ++ started)
    = (Ret sales_df, t1) /\
    load_and_clean_data fs INVENTORIES_FILE InventoriesColumn t1
    = (Ret inventories_df, t2) /\
    empty sales_df = false /\ empty inventories_df = false /\
    merged_df = merged_frame sales_df inventories_df /\
    In (ToCsv MERGED_OUTPUT_FILE merged_df) t'.
Proof.
  rewrite run_data_processing_unfold.
  destruct (load_and_clean_data fs SALES_FILE SalesColumn _)
    as [[sales_df|e] t1] eqn:H1; [|discriminate].
  destruct (load_and_clean_data fs INVENTORIES_FILE InventoriesColumn t1)
    as [[inventories_df|e] t2] eqn:H2; [|discriminate].
  cbv zeta.
  destruct (empty sales_df) eqn:E1; [discriminate|].
  destruct (empty inventories_df) eqn:E2; [discriminate|].
  simpl. intros [= <- <-].
  exists sales_df, t1, inventories_df, t2.
  repeat split; auto. apply in_or_app. right. now left.
Qed.

Lemma Date_eqb_eq a b : Date_eqb a b = true <-> a = b.
Proof.
  destruct a as [[ya ma]|], b as [[yb mb]|]; simpl;
    try (split; [discriminate | congruence]); [|tauto].
  unfold Timestamp_eqb. simpl.
  rewrite andb_true_iff, !Z.eqb_eq.
  split; [intros [-> ->]; reflexivity | intros [= -> ->]; auto].
Qed.

Lemma merge_In row left right :
  In row (merge left right) <->
  exists v w, row = (fst (fst row), v, w) /\
              In (fst (fst row), v) left /\ In (fst (fst row), w) right.
Proof.
  unfold merge. rewrite in_flat_map. split.
  - intros ([d v] & Hl & H). apply in_map_iff in H as ([d' w] & <- & Hr).
    apply filter_In in Hr as [Hr E]. simpl in *.
    apply Date_eqb_eq in E. subst d'. now exists v, w.
  - intros (v & w & E & Hl & Hr). exists (fst (fst row), v). split; [exact Hl|].
    apply in_map_iff. exists (fst (fst row), w). split; [now rewrite E at 3|].
    apply filter_In. split; [exact Hr|]. now apply Date_eqb_eq.
Qed.

Lemma matches_at_most_once d (right : list (option Timestamp * float64)) :
  NoDup (map fst right) ->
  List.length (filter (fun r => Date_eqb d (fst r)) right) <= 1.
Proof.
  induction right as [|r right IH]; simpl; intros H; [lia|].
  inversion H as [|? ? Hr Hn]; subst.
  destruct (Date_eqb d (fst r)) eqn:E; [|auto].
  apply Date_eqb_eq in E. subst d. simpl.
  destruct (filter _ right) as [|r' rest] eqn:F; simpl; [lia|].
  exfalso. apply Hr.
  assert (In r' (filter (fun r0 => Date_eqb (fst r) (fst r0)) right)) as Hin
    by (rewrite F; now left).
  apply filter_In in Hin as [Hin E]. apply Date_eqb_eq in E.
  rewrite E. now apply in_map.
Qed.

Lemma merge_Date_NoDup left right :
  NoDup (map fst left) -> NoDup (map fst right) ->
  NoDup (map (fun r => fst (fst r)) (merge left right)).
Proof.
  intros Hl Hr. induction left as [|l left IH]; simpl; [constructor|].
  inversion Hl as [|? ? Hnot Hrest]; subst.
  rewrite map_app. apply NoDup_app.
  - pose proof (matches_at_most_once (fst l) right Hr) as Hlen.
    destruct (filter _ right) as [|a [|b rest]]; simpl in *;
      [constructor | repeat constructor; auto | lia].
  - now apply IH.
  - intros d Hd Hd'. apply Hnot.
    apply in_map_iff in Hd as (row & <- & Hrow).
    apply in_map_iff in Hrow as (r & <- & _). simpl in *.
    apply in_map_iff in Hd' as (row' & E & Hrow').
    apply merge_In in Hrow' as (v & w & _ & Hin & _).
    rewrite <- E. now apply (in_map fst) in Hin.
Qed.

Lemma merged_Date_In sales_df inventories_df d :
  In d (Date (merged_frame sales_df inventories_df)) <->
  In d (dates sales_df) /\ In d (dates inventories_df).
Proof.
  unfold dates. simpl. rewrite in_map_iff. split.
  - intros (row & <- & H). apply merge_In in H as (v & w & _ & Hl & Hr).
    split; [now apply (in_map fst) in Hl | now apply (in_map fst) in Hr].
  - intros [Hl Hr].
    apply in_map_iff in Hl as ([d1 v] & <- & Hl).
    apply in_map_iff in Hr as ([d2 w] & E & Hr). simpl in *. subst d2.
    exists (d1, v, w). split; [reflexivity|].
    apply merge_In. now exists v, w.
Qed.

Ltac concrete_dates :=
  repeat match goal with
         | |- context [dates ?df] =>
             let ds := eval vm_compute in (dates df) in
             change (dates df) with ds
         end.

(** Two cleaned series with the common dates 2020-01 and 2020-02 and
    their other dates apart; the sales series holds 2020-01 twice, each of
    its two rows is paired with the inventories row of that month, and
    the merged table has three rows. *)
Lemma repeated_date_is_paired_twice :
  let sales_df := cleaned repeated_month_sales SalesColumn in
  let inventories_df := cleaned three_month_inventories InventoriesColumn in
  (forall d, In d (dates sales_df) /\ In d (dates inventories_df) <->
             d = Some (mkTimestamp 2020 1) \/ d = Some (mkTimestamp 2020 2)) /\
  Date (merged_frame sales_df inventories_df)
  = [Some (mkTimestamp 2020 1); Some (mkTimestamp 2020 1);
     Some (mkTimestamp 2020 2)] /\
  ~ Permutation (Date (merged_frame sales_df inventories_df))
      [Some (mkTimestamp 2020 1); Some (mkTimestamp 2020 2)].
Proof.
  cbv zeta.
  assert (Date (merged_frame (cleaned repeated_month_sales SalesColumn)
                  (cleaned three_month_inventories InventoriesColumn))
          = [Some (mkTimestamp 2020 1); Some (mkTimestamp 2020 1);
             Some (mkTimestamp 2020 2)]) as E by (vm_compute; reflexivity).
  split; [|split; [exact E|]].
  - intros d. concrete_dates. simpl. intuition congruence.
  - rewrite E. intros P. apply Permutation_length in P. discriminate P.
Qed.

(** C3, amended. The merge is an inner join on the Date: every merged row
    carries a Date, a sales value and an inventories value that are a row
    of the sales series and a row of the inventories series; and for two
    series neither of which repeats a Date, whose common dates are
    2020-01 and 2020-02, the merged table consists of exactly the two rows
    of these dates. *)
Theorem merge_is_inner_join sales_df inventories_df :
  let merged_df := merged_frame sales_df inventories_df in
  (forall n d,
      nth_error (Date merged_df) n = Some d ->
      exists v w,
        nth_error (Sales_Total_Nominal merged_df) n = Some v /\
        nth_error (Inventories_Total_Nominal merged_df) n = Some w /\
        In (d, v) (rows sales_df) /\ In (d, w) (rows inventories_df)) /\
  (NoDup (dates sales_df) -> NoDup (dates inventories_df) ->
   (forall d, In d (dates sales_df) /\ In d (dates inventories_df) <->
              d = Some (mkTimestamp 2020 1) \/ d = Some (mkTimestamp 2020 2)) ->
   Permutation (Date merged_df)
     [Some (mkTimestamp 2020 1); Some (mkTimestamp 2020 2)]).
Proof.
  cbv zeta. split.
  - intros n d. simpl. rewrite !nth_error_map.
    destruct (nth_error (merge (rows sales_df) (rows inventories_df)) n)
      as [row|] eqn:E; [|discriminate].
    simpl. intros [= <-].
    apply nth_error_In, merge_In in E as (v & w & -> & Hl & Hr).
    now exists v, w.
  - intros Hs Hi Hcommon. apply NoDup_Permutation.
    + now apply merge_Date_NoDup.
    + repeat constructor; simpl; intuition congruence.
    + intros d. rewrite merged_Date_In, Hcommon. simpl. intuition congruence.
Qed.

Lemma three_month_tables_merge_to_two_rows :
  let sales_df := cleaned three_month_sales SalesColumn in
  let inventories_df := cleaned three_month_inventories InventoriesColumn in
  Permutation (Date (merged_frame sales_df inventories_df))
    [Some (mkTimestamp 2020 1); Some (mkTimestamp 2020 2)].
Proof.
  cbv zeta.
  apply (merge_is_inner_join (cleaned three_month_sales SalesColumn)
           (cleaned three_month_inventories InventoriesColumn)).
  - concrete_dates. repeat constructor; simpl; intuition congruence.
  - concrete_dates. repeat constructor; simpl; intuition congruence.
  - intros d. concrete_dates. simpl. intuition congruence.
Defined.

(** ** The ratio *)






(** ** The order of the merged table *)

Lemma StronglySorted_constant (d : option Timestamp) l :
  d <> None -> Forall (eq d) l -> StronglySorted Date_le l.
Proof.
  intros Hd. induction 1 as [|x l <- Hl IH]; constructor; [exact IH|].
  eapply Forall_impl; [|exact Hl]. intros y <-.
  destruct d as [[y m]|]; [|congruence]. unfold Date_le, Timestamp_le. lia.
Qed.

Lemma merge_Date_sorted left right :
  Forall (fun d => d <> None) (map fst left) ->
  StronglySorted Date_le (map fst left) ->
  StronglySorted Date_le (map (fun r => fst (fst r)) (merge left right)).
Proof.
  induction left as [|l left IH]; simpl; intros Hsome Hsorted; [constructor|].
  inversion Hsome as [|? ? Hl Hsome']; subst.
  inversion Hsorted as [|? ? Hsorted' Hle]; subst.
  rewrite map_app. apply StronglySorted_app.
  - apply StronglySorted_constant with (d := fst l); [exact Hl|].
    rewrite map_map. simpl. apply Forall_forall.
    intros d Hd. apply in_map_iff in Hd as (r & <- & _). reflexivity.
  - now apply IH.
  - intros a b Ha Hb.
    rewrite map_map in Ha. apply in_map_iff in Ha as (r & <- & _). simpl.
    apply in_map_iff in Hb as (row & <- & Hrow).
    apply merge_In in Hrow as (v & w & _ & Hin & _).
    apply (in_map fst) in Hin. simpl in Hin.
    rewrite Forall_forall in Hle. now apply Hle.
Qed.

Lemma loaded_rows_valid_and_sorted fs file_path column_name t df t' :
  load_and_clean_data fs file_path column_name t = (Ret df, t') ->
  Forall (fun d => d <> None) (dates df) /\ StronglySorted Date_le (dates df).
Proof.
  intros H. apply load_and_clean_data_returns in H as [_ H].
  destruct H as [-> | (M' & Y & V & ->)]; unfold dates; simpl.
  - split; constructor.
  - split; [|apply clean_sorted].
    apply Forall_forall. intros d Hd.
    apply in_map_iff in Hd as (r & <- & Hr). now apply clean_notna in Hr.
Qed.

(** C10. The merged table, which is the table written to the output
    file, is in ascending order of Date: the join keeps the order of the
    sales series, which [load_and_clean_data] has sorted, so in every two
    consecutive rows the first Date is at most the second. *)
Theorem merged_table_sorted_by_Date fs t merged_df t' :
  run_data_processing fs t = (Ret (Some merged_df), t') ->
  (forall n a b,
      nth_error (Date merged_df) n = Some a ->
      nth_error (Date merged_df) (S n) = Some b ->
      Date_le a b) /\
  In (ToCsv MERGED_OUTPUT_FILE merged_df) t'.
Proof.
  intros H.
  apply run_data_processing_returns in H
    as (sales_df & t1 & inventories_df & t2 & H1 & _ & _ & _ & -> & Hcsv).
  split; [|exact Hcsv].
  apply loaded_rows_valid_and_sorted in H1 as [Hsome Hsorted].
  intros n a b. apply Sorted_consecutive, StronglySorted_Sorted.
  now apply merge_Date_sorted.
Qed.

Lemma sample_merged_sorted_by_Date :
  (forall n a b,
      nth_error (Date sample_merged) n = Some a ->
      nth_error (Date sample_merged) (S n) = Some b ->
      Date_le a b) /\
  In (ToCsv MERGED_OUTPUT_FILE sample_merged)
     (snd (run_data_processing sample_disk [])).
Proof.
  apply (merged_table_sorted_by_Date sample_disk [] sample_merged
           (snd (run_data_processing sample_disk []))).
  vm_compute. reflexivity.
Defined.

(** ** The growth over twelve rows *)











(** * Further properties *)

(** ** The Year column *)

Lemma digit_is_no_space c : is_digit c = true -> is_space c = false.
Proof.
  unfold is_digit, is_space, in_range. generalize (code c). intros n H.
  apply andb_true_iff in H as [H1 H2]. apply N.leb_le in H1, H2.
  repeat apply orb_false_intro.
  - apply andb_false_iff. right. apply N.leb_gt. lia.
  - apply andb_false_iff. right. apply N.leb_gt. lia.
  - apply N.eqb_neq. lia.
Qed.

Lemma ends_with_app a suffix : ends_with suffix (a ++ suffix) = true.
Proof.
  induction a as [|c a IH]; simpl.
  - destruct suffix; simpl; [reflexivity|].
    now rewrite Ascii.eqb_refl, str_eqb_refl.
  - rewrite IH. apply orb_true_r.
Qed.

Lemma digits_end_with_no_dot ds suffix :
  Forall (fun c => is_digit c = true) ds ->
  ends_with ("."%char :: suffix) ds = false.
Proof.
  induction 1 as [|c ds Hc _ IH]; cbn [ends_with str_eqb]; [reflexivity|].
  rewrite IH, orb_false_r.
  destruct (Ascii.eqb "." c) eqn:E; [|reflexivity].
  apply Ascii.eqb_eq in E. subst c. discriminate Hc.
Qed.

Lemma lstrip_digits ds :
  Forall (fun c => is_digit c = true) ds -> lstrip ds = ds.
Proof.
  destruct 1 as [|c ds Hc _]; simpl; [reflexivity|].
  now rewrite (digit_is_no_space _ Hc).
Qed.

Lemma rstrip_digits ds :
  Forall (fun c => is_digit c = true) ds -> rstrip ds = ds.
Proof.
  induction 1 as [|c ds Hc _ IH]; simpl; [reflexivity|].
  rewrite IH, (digit_is_no_space _ Hc). now destruct ds.
Qed.

(** X1. A year written with digits only is left as it is, and the same
    year serialised as a float ("2020.0") is brought back to its digits. *)
Theorem clean_year_of_digits (ds : str) :
  Forall (fun c => is_digit c = true) ds ->
  clean_year ds = ds /\ clean_year (ds ++ txt ".0") = ds.
Proof.
  intros H.
  assert (ends_with (txt ".0") ds = false) as E1
    by (apply (digits_end_with_no_dot ds (txt "0")); exact H).
  assert (ends_with (txt ".0" ++ [newline]) ds = false) as E2
    by (apply (digits_end_with_no_dot ds (txt "0" ++ [newline])); exact H).
  unfold clean_year, remove_trailing_dot_zero, strip. split.
  - rewrite E1, E2. now rewrite lstrip_digits, rstrip_digits.
  - rewrite ends_with_app. unfold drop_last.
    rewrite length_app. simpl List.length.
    replace (List.length ds + 2 - 2) with (List.length ds + 0) by lia.
    rewrite firstn_app_2. simpl. rewrite app_nil_r.
    now rewrite lstrip_digits, rstrip_digits.
Qed.

Lemma clean_year_of_2020 :
  clean_year (txt "2020") = (txt "2020") /\
  clean_year (txt "2020" ++ txt ".0") = (txt "2020").
Proof.
  apply (clean_year_of_digits (txt "2020")).
  repeat constructor.
Defined.

(** ** The dates of a cleaned series *)

Lemma match_month_range names k s m rest :
  match_month names k s = Some (m, rest) ->
  (k <= m < k + Z.of_nat (List.length names))%Z.
Proof.
  revert k; induction names as [|n names IH]; intros k; simpl; [discriminate|].
  destruct (match_literal n s).
  - intros [= <- _]. lia.
  - intros H. apply IH in H. lia.
Qed.

Lemma digit_value_range c :
  is_digit c = true -> (0 <= digit_value c <= 9)%Z.
Proof.
  unfold is_digit, in_range, digit_value. generalize (code c). intros n H.
  apply andb_true_iff in H as [H1 H2]. apply N.leb_le in H1, H2. lia.
Qed.

Lemma match_year_range s y : match_year s = Some y -> (0 <= y <= 9999)%Z.
Proof.
  unfold match_year.
  destruct s as [|a [|b [|c [|d [|? ?]]]]]; try discriminate.
  destruct (forallb is_digit [a; b; c; d]) eqn:E; [|discriminate].
  intros [= <-]. simpl in E.
  repeat (apply andb_true_iff in E as [?%digit_value_range E]).
  simpl. lia.
Qed.

Lemma to_datetime_calendar s ts :
  to_datetime s = Some ts ->
  (1 <= month ts <= 12)%Z /\ (0 <= year ts <= 9999)%Z.
Proof.
  unfold to_datetime.
  destruct (match_month month_names 1 s) as [[m rest]|] eqn:Em; [|discriminate].
  apply match_month_range in Em. simpl in Em.
  destruct rest as [|c rest]; [discriminate|].
  destruct (is_space c); [|discriminate].
  destruct (match_year (lstrip (c :: rest))) as [y|] eqn:Ey; [|discriminate].
  apply match_year_range in Ey. intros [= <-]. simpl. lia.
Qed.

Lemma clean_Date_parsed Month Year value r :
  In r (clean Month Year value) -> exists s, fst r = to_datetime s.
Proof.
  unfold clean. rewrite sort_values_Date_In, filter_In, in_map_iff.
  intros [(r0 & <- & H0) _]. simpl.
  apply filter_In in H0 as [H0 _]. destruct r0 as [d v].
  apply in_combine_l, in_map_iff in H0 as (s & <- & _). now exists s.
Qed.

(** X2. Every Date of a series that [load_and_clean_data] returns is the
    first day of a calendar month: its month is between 1 and 12 and its
    year has at most four digits. *)
Theorem cleaned_dates_are_calendar_months
    fs file_path column_name t df t' :
  load_and_clean_data fs file_path column_name t = (Ret df, t') ->
  Forall (fun d => exists ts, d = Some ts /\
                              (1 <= month ts <= 12)%Z /\
                              (0 <= year ts <= 9999)%Z)
         (dates df).
Proof.
  intros H. apply load_and_clean_data_returns in H as [_ H].
  destruct H as [-> | (M' & Y & V & ->)]; unfold dates; simpl; [constructor|].
  apply Forall_forall. intros d Hd.
  apply in_map_iff in Hd as (r & <- & Hr).
  destruct (clean_Date_parsed _ _ _ _ Hr) as (s & E).
  apply clean_notna in Hr as [Hsome _].
  destruct (fst r) as [ts|]; [|congruence].
  exists ts. split; [reflexivity|]. now apply to_datetime_calendar with (s := s).
Qed.

Lemma cleaned_sample_dates_are_calendar_months :
  Forall (fun d => exists ts, d = Some ts /\
                              (1 <= month ts <= 12)%Z /\
                              (0 <= year ts <= 9999)%Z)
         (dates (cleaned sample_sales SalesColumn)).
Proof.
  apply (cleaned_dates_are_calendar_months (fun _ => Ret sample_sales)
           SALES_FILE SalesColumn [] (cleaned sample_sales SalesColumn)
           (snd (load_and_clean_data (fun _ => Ret sample_sales)
                   SALES_FILE SalesColumn []))).
  vm_compute. reflexivity.
Defined.

(** ** The cleaned month label *)

Lemma space_is_no_word c : is_space c = true -> is_word c = false.
Proof.
  unfold is_space, is_word, is_digit, is_upper, is_lower, in_range.
  generalize (code c). intros n H.
  assert (n <= 32)%N as Hn.
  { apply orb_true_iff in H as [H|H]; [apply orb_true_iff in H as [H|H]|].
    - apply andb_true_iff in H as [_ H]. apply N.leb_le in H. lia.
    - apply andb_true_iff in H as [_ H]. apply N.leb_le in H. lia.
    - apply N.eqb_eq in H. lia. }
  repeat apply orb_false_intro.
  - apply andb_false_iff. left. apply N.leb_gt. lia.
  - apply andb_false_iff. left. apply N.leb_gt. lia.
  - apply andb_false_iff. left. apply N.leb_gt. lia.
  - apply N.eqb_neq. lia.
Qed.

Lemma collapsed_spaces b s :
  collapsed b s = true -> Forall (fun c => is_space c = true -> c = space) s.
Proof.
  revert b; induction s as [|c s IH]; intros b H; simpl in *; constructor.
  - destruct (is_space c); [|discriminate].
    apply andb_prop in H as [H _]. apply andb_prop in H as [_ H].
    intros _. now apply Ascii.eqb_eq.
  - destruct (is_space c); [|now apply (IH false)].
    apply andb_prop in H as [_ H]. now apply (IH true).
Qed.

Lemma collapsed_no_double b s i x y :
  collapsed b s = true ->
  nth_error s i = Some x -> nth_error s (S i) = Some y ->
  is_space x = true -> is_space y = false.
Proof.
  revert b i; induction s as [|c s IH]; intros b i H Hx Hy Sx;
    [now destruct i|].
  simpl in H. destruct i as [|i]; simpl in Hx, Hy.
  - injection Hx as ->. rewrite Sx in H.
    apply andb_prop in H as [_ H].
    destruct s as [|d s]; [discriminate|]. injection Hy as ->.
    simpl in H. destruct (is_space y); [discriminate H | reflexivity].
  - destruct (is_space c).
    + apply andb_prop in H as [_ H]. exact (IH true i H Hx Hy Sx).
    + exact (IH false i H Hx Hy Sx).
Qed.

Lemma strip_head s c t : strip s = c :: t -> is_space c = false.
Proof.
  unfold strip.
  destruct (lstrip_head s) as [-> | (d & u & -> & Hd)]; [discriminate|].
  simpl. destruct (rstrip u); [rewrite Hd|]; intros [= <- _]; exact Hd.
Qed.

Lemma rstrip_last s t c : rstrip s = t ++ [c] -> is_space c = false.
Proof.
  revert t; induction s as [|d s IH]; intros t; simpl;
    [now destruct t|].
  destruct (rstrip s) as [|e r] eqn:E.
  - destruct (is_space d) eqn:Hd; [now destruct t|].
    destruct t as [|? [|? ?]]; intros [= <-]; try discriminate. exact Hd.
  - destruct t as [|x t]; [discriminate|].
    intros [= _ H]. now apply (IH t).
Qed.

(** X3. A cleaned month label is made of letters, digits, underscores and
    single spaces only: no space at its beginning or at its end, and no two
    spaces in a row. *)
Theorem clean_month_is_tidy (s : str) :
  let r := clean_month s in
  Forall (fun c => is_word c = true \/ c = space) r /\
  (forall c t, r = c :: t -> is_space c = false) /\
  (forall c t, r = t ++ [c] -> is_space c = false) /\
  (forall i x y, nth_error r i = Some x -> nth_error r (S i) = Some y ->
                 is_space x = true -> is_space y = false).
Proof.
  cbv zeta. repeat split.
  - pose proof (clean_month_kept s) as K.
    pose proof (collapsed_spaces _ _ (clean_month_collapsed s)) as S.
    rewrite Forall_forall in *. intros c Hc.
    specialize (K c Hc). specialize (S c Hc).
    unfold word_or_space in K. apply orb_true_iff in K as [K|K]; auto.
  - intros c t. apply strip_head.
  - intros c t. apply rstrip_last.
  - intros i x y. apply collapsed_no_double with (b := false).
    apply clean_month_collapsed.
Qed.

Lemma filter_word_lstrip s : filter is_word (lstrip s) = filter is_word s.
Proof.
  induction s as [|c s IH]; simpl; [reflexivity|].
  destruct (is_space c) eqn:Hc; [|reflexivity].
  now rewrite (space_is_no_word _ Hc).
Qed.

Lemma filter_word_rstrip s : filter is_word (rstrip s) = filter is_word s.
Proof.
  induction s as [|c s IH]; simpl; [reflexivity|].
  rewrite <- IH. destruct (rstrip s); [|reflexivity].
  destruct (is_space c) eqn:Hc; [|reflexivity].
  now rewrite (space_is_no_word _ Hc).
Qed.

Lemma filter_word_collapse b s :
  filter is_word (collapse_from b s) = filter is_word s.
Proof.
  revert b; induction s as [|c s IH]; intros b; simpl; [reflexivity|].
  destruct (is_space c) eqn:Hc.
  - rewrite (space_is_no_word _ Hc). destruct b; simpl; apply IH.
  - simpl. now rewrite IH.
Qed.

Lemma filter_word_punctuation s :
  filter is_word (remove_punctuation s) = filter is_word s.
Proof.
  unfold remove_punctuation, word_or_space.
  induction s as [|c s IH]; simpl; [reflexivity|].
  destruct (is_word c) eqn:Hc; simpl; [now rewrite Hc, IH|].
  destruct (is_space c); simpl; [now rewrite Hc|exact IH].
Qed.

(** X4. Cleaning a month label removes no letter, digit or underscore: the
    word characters of the cleaned label are those of the raw label, in
    their order.  The letter of a footnote ("p", "r") stays in the label. *)
Theorem clean_month_keeps_word_characters (s : str) :
  filter is_word (clean_month s) = filter is_word s.
Proof.
  unfold clean_month, strip, collapse_whitespace.
  now rewrite filter_word_rstrip, filter_word_lstrip, filter_word_collapse,
    filter_word_punctuation.
Qed.

(** ** What a run always does *)

Lemma load_and_clean_data_trace fs file_path column_name t :
  exists rest,
    snd (load_and_clean_data fs file_path column_name t) = t ++ rest /\
    Forall (fun e => exists m, e = Print m) rest.
Proof.
  pose proof (load_and_clean_data_cases fs file_path column_name t) as C.
  destruct (fs file_path) as [raw|e].
  - destruct C as [(e & _ & ->) | (M' & Y & V & C)].
    + exists []. now rewrite app_nil_r.
    + cbv zeta in C. rewrite C. eexists. split; [reflexivity|].
      repeat constructor. eauto.
  - destruct e; rewrite C; simpl;
      try (exists []; now rewrite app_nil_r);
      (eexists; split; [reflexivity|]; repeat constructor; eauto).
Qed.

(** X5. Every run begins by creating the two output directories and by
    announcing the processing, whatever the files hold and however the run
    ends: with charts, with the abort of an empty series or with an
    exception. *)
Theorem every_run_creates_the_directories_first fs t :
  exists rest, snd (main fs t) = t ++ started ++ rest.
Proof.
  rewrite main_unfold, run_data_processing_unfold.
  destruct (load_and_clean_data_trace fs SALES_FILE SalesColumn (t ++ started))
    as (r1 & E1 & _).
  destruct (load_and_clean_data fs SALES_FILE SalesColumn (t ++ started))
    as [[sales_df|e] t1]; simpl in E1; subst t1;
    [|exists r1; now rewrite <- app_assoc].
  destruct (load_and_clean_data_trace fs INVENTORIES_FILE InventoriesColumn
              ((t ++ started) ++ r1)) as (r2 & E2 & _).
  destruct (load_and_clean_data fs INVENTORIES_FILE InventoriesColumn
              ((t ++ started) ++ r1))
    as [[inventories_df|e] t2]; simpl in E2; subst t2;
    [|exists (r1 ++ r2); now rewrite <- !app_assoc].
  cbv zeta.
  destruct (empty sales_df || empty inventories_df).
  - eexists. simpl. rewrite <- !app_assoc. reflexivity.
  - destruct (merged_empty _); eexists; simpl; rewrite <- !app_assoc;
      reflexivity.
Qed.

(** X6. An exception of [read_csv] other than FileNotFoundError and
    EmptyDataError is not caught: [load_and_clean_data] prints nothing and
    raises it, and when it comes from the sales file the run ends with it
    right after the directories are created. *)
Theorem other_read_errors_propagate fs file_path column_name e t :
  fs file_path = Raise e ->
  e <> FileNotFoundError -> e <> EmptyDataError ->
  load_and_clean_data fs file_path column_name t = (Raise e, t) /\
  (file_path = SALES_FILE -> main fs [] = (Raise e, started)).
Proof.
  intros Hfs H1 H2.
  assert (forall c t0, load_and_clean_data fs file_path c t0 = (Raise e, t0))
    as L.
  { intros c t0.
    pose proof (load_and_clean_data_cases fs file_path c t0) as C.
    rewrite Hfs in C. destruct e; auto; congruence. }
  split; [apply L|].
  intros ->. rewrite main_unfold, run_data_processing_unfold. simpl.
  now rewrite L.
Qed.

Lemma parser_error_of_the_sales_file_propagates :
  let fs := disk (Raise ParserError) (Ret sample_inventories) in
  load_and_clean_data fs SALES_FILE SalesColumn [] = (Raise ParserError, []) /\
  (SALES_FILE = SALES_FILE -> main fs [] = (Raise ParserError, started)).
Proof.
  apply (other_read_errors_propagate
           (disk (Raise ParserError) (Ret sample_inventories))
           SALES_FILE SalesColumn ParserError []).
  - reflexivity.
  - discriminate.
  - discriminate.
Defined.

(** X7. With two series that are not empty the run writes the merged table
    once and ends normally; the four charts are saved, in their order,
    exactly when the merged table has a row.  It has none when the two
    series share no Date: the table is then written without rows and no
    chart is drawn. *)
Theorem charts_follow_a_table_with_rows
    fs sales_df t1 inventories_df t2 :
  load_and_clean_data fs SALES_FILE SalesColumn started = (Ret sales_df, t1) ->
  load_and_clean_data fs INVENTORIES_FILE InventoriesColumn t1
  = (Ret inventories_df, t2) ->
  empty sales_df = false -> empty inventories_df = false ->
  let merged_df := merged_frame sales_df inventories_df in
  fst (main fs []) = Ret tt /\
  filter writes_csv (snd (main fs []))
  = [ToCsv MERGED_OUTPUT_FILE merged_df] /\
  filter saves_figure (snd (main fs []))
  = (if merged_empty merged_df then [] else map SaveFig chart_files) /\
  (merged_empty merged_df = true <->
   forall d, In d (dates sales_df) -> ~ In d (dates inventories_df)).
Proof.
  intros H1 H2 E1 E2 merged_df.
  rewrite main_unfold, run_data_processing_unfold. simpl app.
  rewrite H1, H2. cbv zeta. rewrite E1, E2. simpl orb. cbv iota.
  fold merged_df.
  apply load_and_clean_data_returns in H1 as [(m1 & ->) _].
  apply load_and_clean_data_returns in H2 as [(m2 & ->) _].
  unfold emptiness_reports. rewrite E1, E2.
  split; [now destruct (merged_empty merged_df)|].
  split; [destruct (merged_empty merged_df); rewrite ?filter_app; reflexivity|].
  split; [destruct (merged_empty merged_df); rewrite ?filter_app; reflexivity|].
  unfold merged_empty. split.
  - intros He d Hs Hi.
    assert (In d (Date merged_df)) as Hd by (apply merged_Date_In; auto).
    destruct (Date merged_df); [exact Hd | discriminate].
  - intros Hnone. destruct (Date merged_df) as [|d ds] eqn:E; [reflexivity|].
    exfalso.
    assert (In d (Date merged_df)) as Hd by (rewrite E; now left).
    apply merged_Date_In in Hd as [Hs Hi]. exact (Hnone d Hs Hi).
Qed.

Lemma tables_without_common_month_give_no_chart :
  let fs := disk (Ret winter_sales) (Ret summer_inventories) in
  let merged_df := merged_frame (cleaned winter_sales SalesColumn)
                     (cleaned summer_inventories InventoriesColumn) in
  fst (main fs []) = Ret tt /\
  filter writes_csv (snd (main fs []))
  = [ToCsv MERGED_OUTPUT_FILE merged_df] /\
  filter saves_figure (snd (main fs []))
  = (if merged_empty merged_df then [] else map SaveFig chart_files) /\
  (merged_empty merged_df = true <->
   forall d, In d (dates (cleaned winter_sales SalesColumn)) ->
             ~ In d (dates (cleaned summer_inventories InventoriesColumn))).
Proof.
  apply (charts_follow_a_table_with_rows
           (disk (Ret winter_sales) (Ret summer_inventories))
           (cleaned winter_sales SalesColumn)
           (started ++ [Print (LoadedMsg 2 SALES_FILE)])
           (cleaned summer_inventories InventoriesColumn)
           (started ++ [Print (LoadedMsg 2 SALES_FILE);
                        Print (LoadedMsg 2 INVENTORIES_FILE)]));
    vm_compute; reflexivity.
Defined.

(** ** The size of the join *)

Lemma occurrences_matches d (right : list (option Timestamp * float64)) :
  List.length (filter (fun r => Date_eqb d (fst r)) right)
  = occurrences d (map fst right).
Proof.
  unfold occurrences.
  induction right as [|r right IH]; simpl; [reflexivity|].
  destruct (Date_eq_dec (fst r) d) as [E|E].
  - subst d. replace (Date_eqb (fst r) (fst r)) with true
      by (symmetry; now apply Date_eqb_eq).
    simpl. now rewrite IH.
  - destruct (Date_eqb d (fst r)) eqn:B; [|exact IH].
    apply Date_eqb_eq in B. congruence.
Qed.

Lemma occurrences_constant (A : Type) d x (l : list A) :
  occurrences d (map (fun _ => x) l)
  = if Date_eq_dec x d then List.length l else 0.
Proof.
  unfold occurrences.
  induction l as [|r l IH]; simpl; [now destruct (Date_eq_dec x d)|].
  rewrite IH. now destruct (Date_eq_dec x d).
Qed.

(** X8. The join pairs every sales row of a Date with every inventories
    row of that Date: a Date that occurs m times in the sales series and n
    times in the inventories series occurs m * n times in the merged table
    (once when both series hold it once, not at all when one lacks it). *)
Theorem merged_rows_per_date sales_df inventories_df d :
  occurrences d (Date (merged_frame sales_df inventories_df))
  = occurrences d (dates sales_df) * occurrences d (dates inventories_df).
Proof.
  pose proof occurrences_matches as M.
  pose proof occurrences_constant as K.
  unfold occurrences in *. unfold dates. simpl. unfold merge.
  induction (rows sales_df) as [|l left IH]; simpl; [reflexivity|].
  rewrite map_app, count_occ_app, IH, map_map. simpl.
  rewrite K, M.
  destruct (Date_eq_dec (fst l) d) as [E|E]; [now subst d | reflexivity].
Qed.

(** X9. If neither series holds a Date twice, the merged table of a run
    holds no Date twice either: it has one row for each common month. *)
Theorem one_row_per_month_in_the_output
    fs sales_df t1 inventories_df t2 merged_df t' :
  load_and_clean_data fs SALES_FILE SalesColumn started = (Ret sales_df, t1) ->
  load_and_clean_data fs INVENTORIES_FILE InventoriesColumn t1
  = (Ret inventories_df, t2) ->
  run_data_processing fs [] = (Ret (Some merged_df), t') ->
  NoDup (dates sales_df) -> NoDup (dates inventories_df) ->
  NoDup (Date merged_df) /\
  forall d, In d (Date merged_df) <->
            In d (dates sales_df) /\ In d (dates inventories_df).
Proof.
  intros H1 H2 R Ns Ni.
  rewrite run_data_processing_unfold in R. simpl app in R.
  rewrite H1, H2 in R. cbv zeta in R.
  destruct (empty sales_df || empty inventories_df); [discriminate|].
  injection R as <- _. split.
  - now apply merge_Date_NoDup.
  - intros d. apply merged_Date_In.
Qed.

Lemma one_row_per_month_in_the_sample_output :
  NoDup (Date sample_merged) /\
  forall d, In d (Date sample_merged) <->
            In d (dates (cleaned sample_sales SalesColumn)) /\
            In d (dates (cleaned sample_inventories InventoriesColumn)).
Proof.
  apply (one_row_per_month_in_the_output sample_disk
           (cleaned sample_sales SalesColumn)
           (started ++ [Print (LoadedMsg 14 SALES_FILE)])
           (cleaned sample_inventories InventoriesColumn)
           (started ++ [Print (LoadedMsg 14 SALES_FILE);
                        Print (LoadedMsg 14 INVENTORIES_FILE)])
           sample_merged
           (snd (run_data_processing sample_disk []))).
  - vm_compute. reflexivity.
  - vm_compute. reflexivity.
  - vm_compute. reflexivity.
  - concrete_dates. repeat constructor; simpl; intuition congruence.
  - concrete_dates. repeat constructor; simpl; intuition congruence.
Defined.

(** ** The values of the merged table *)

Lemma cleaned_rows_are_complete fs file_path column_name t df t' :
  load_and_clean_data fs file_path column_name t = (Ret df, t') ->
  Forall (fun r => fst r <> None /\ isna (snd r) = false) (rows df).
Proof.
  intros H. apply load_and_clean_data_returns in H as [_ H].
  destruct H as [-> | (M' & Y & V & ->)]; simpl; [constructor|].
  apply Forall_forall. intros r. apply clean_notna.
Qed.

Lemma nth_error_map_Some (A B : Type) (f : A -> B) l n y :
  nth_error (map f l) n = Some y ->
  exists x, nth_error l n = Some x /\ f x = y.
Proof.
  rewrite nth_error_map. destruct (nth_error l n) as [x|]; [|discriminate].
  intros [= <-]. now exists x.
Qed.



(** X17. The merged table of a run has no missing sales or inventories
    value and no missing Date: a NaN can only stand in the two derived
    columns. *)
Theorem merged_table_has_no_missing_input fs t merged_df t' :
  run_data_processing fs t = (Ret (Some merged_df), t') ->
  Forall (fun d => d <> None) (Date merged_df) /\
  Forall (fun v => isna v = false) (Sales_Total_Nominal merged_df) /\
  Forall (fun v => isna v = false) (Inventories_Total_Nominal merged_df).
Proof.
  intros H.
  apply run_data_processing_returns in H
    as (sales_df & t1 & inventories_df & t2 & H1 & H2 & _ & _ & -> & _).
  apply cleaned_rows_are_complete in H1. apply cleaned_rows_are_complete in H2.
  rewrite Forall_forall in H1, H2. simpl.
  repeat split; apply Forall_forall; intros x Hx;
    apply in_map_iff in Hx as ([[d v] w] & <- & Hrow);
    apply merge_In in Hrow as (v' & w' & E & Hl & Hr);
    simpl in *; injection E as <- <-.
  - now apply (H1 (d, v)).
  - now apply (H1 (d, v)).
  - now apply (H2 (d, w)).
Qed.

Lemma sample_merged_has_no_missing_input :
  Forall (fun d => d <> None) (Date sample_merged) /\
  Forall (fun v => isna v = false) (Sales_Total_Nominal sample_merged) /\
  Forall (fun v => isna v = false) (Inventories_Total_Nominal sample_merged).
Proof.
  apply (merged_table_has_no_missing_input sample_disk [] sample_merged
           (snd (run_data_processing sample_disk []))).
  vm_compute. reflexivity.
Defined.



(** ** The rows of a loaded table *)

Lemma getitem_str_length l df t column t' :
  getitem_str l df t = (Ret column, t') ->
  List.length column = List.length (data df).
Proof.
  unfold getitem_str.
  destruct (positions l (columns df) 0) as [|i [|? ?]]; try discriminate.
  intros [= <- _]. apply length_map.
Qed.

Lemma load_and_clean_data_columns fs file_path column_name raw t df t' :
  fs file_path = Ret raw ->
  load_and_clean_data fs file_path column_name t = (Ret df, t') ->
  exists Month Year value,
    List.length value = List.length (data raw) /\
    df = mkCleanFrame [Date_label; label column_name] (clean Month Year value) /\
    t' = t ++ [Print (LoadedMsg (List.length (clean Month Year value)) file_path)].
Proof.
  intros Hfs. unfold load_and_clean_data, bind, try, read_csv. rewrite Hfs.
  unfold getitem_list.
  destruct (filter _ _) as [|l missing]; [|discriminate].
  set (df_clean := mkDataFrame _ _). run_step.
  destruct (getitem_str Month_label df_clean t) as [[Month|e] tm] eqn:Em;
    [|discriminate].
  destruct (getitem_str Year_label df_clean tm) as [[Year|e] ty] eqn:Ey;
    [|discriminate].
  destruct (getitem_str (label column_name) df_clean ty) as [[value|e] tv] eqn:Ev;
    [|discriminate].
  assert (tm = t /\ ty = t /\ tv = t) as (-> & -> & ->).
  { unfold getitem_str in Em, Ey, Ev.
    destruct (positions Month_label (columns df_clean) 0) as [|? [|? ?]];
      try discriminate.
    destruct (positions Year_label (columns df_clean) 0) as [|? [|? ?]];
      try discriminate.
    destruct (positions (label column_name) (columns df_clean) 0)
      as [|? [|? ?]]; try discriminate.
    injection Em as _ <-. injection Ey as _ <-. injection Ev as _ <-. auto. }
  apply getitem_str_length in Ev.
  unfold print, emit. intros [= <- <-].
  exists Month, Year, value. repeat split.
  rewrite Ev. unfold df_clean. simpl. now rewrite length_map.
Qed.

Lemma length_clean Month Year value :
  List.length (clean Month Year value) <= List.length value.
Proof.
  unfold clean, sort_values_Date.
  rewrite <- (Permutation_length (DateSort.Permuted_sort _)).
  eapply Nat.le_trans; [apply filter_length_le|].
  rewrite length_map.
  eapply Nat.le_trans; [apply filter_length_le|].
  rewrite length_combine. apply Nat.le_min_r.
Qed.

(** X12. Cleaning only drops rows: the series that [load_and_clean_data]
    returns for a table has at most as many rows as the table, and the
    count it prints is the count of the rows it returns. *)
Theorem cleaning_adds_no_row fs file_path column_name raw t df t' :
  fs file_path = Ret raw ->
  load_and_clean_data fs file_path column_name t = (Ret df, t') ->
  List.length (rows df) <= List.length (data raw) /\
  t' = t ++ [Print (LoadedMsg (List.length (rows df)) file_path)].
Proof.
  intros Hfs H.
  destruct (load_and_clean_data_columns _ _ _ _ _ _ _ Hfs H)
    as (M' & Y & V & Hlen & -> & ->).
  simpl. split; [|reflexivity].
  rewrite <- Hlen. apply length_clean.
Qed.

Lemma cleaning_the_sample_sales_drops_a_row :
  List.length (rows (cleaned sample_sales SalesColumn))
  <= List.length (data sample_sales) /\
  snd (load_and_clean_data sample_disk SALES_FILE SalesColumn [])
  = [] ++ [Print (LoadedMsg
                    (List.length (rows (cleaned sample_sales SalesColumn)))
                    SALES_FILE)].
Proof.
  apply (cleaning_adds_no_row sample_disk SALES_FILE SalesColumn sample_sales
           [] (cleaned sample_sales SalesColumn)
           (snd (load_and_clean_data sample_disk SALES_FILE SalesColumn []))).
  - reflexivity.
  - vm_compute. reflexivity.
Defined.

(** ** A label carried by two columns *)

Ltac selection_fails_now :=
  eexists; split; [|reflexivity]; first [now right | left; eauto].

Lemma length_positions l cols i :
  List.length (positions l cols i)
  = List.length (filter (fun c => str_eqb c l) cols).
Proof.
  revert i; induction cols as [|c cols IH]; intros i; simpl; [reflexivity|].
  destruct (str_eqb c l); simpl; now rewrite IH.
Qed.

Lemma positions_nth l cols k i :
  In i (positions l cols k) -> k <= i /\ nth (i - k) cols [] = l.
Proof.
  revert k; induction cols as [|c cols IH]; intros k; simpl; [tauto|].
  destruct (str_eqb c l) eqn:E.
  - intros [<- | H].
    + rewrite Nat.sub_diag. split; [lia | now apply str_eqb_eq].
    + apply IH in H as [Hk Hn]. split; [lia|].
      replace (i - k) with (S (i - S k)) by lia. exact Hn.
  - intros H. apply IH in H as [Hk Hn]. split; [lia|].
    replace (i - k) with (S (i - S k)) by lia. exact Hn.
Qed.

Lemma two_matches (A : Type) (p : A -> bool) l a b :
  In a l -> In b l -> a <> b -> p a = true -> p b = true ->
  2 <= List.length (filter p l).
Proof.
  induction l as [|x l IH]; simpl; [tauto|].
  intros Ha Hb Hab Pa Pb.
  assert (forall y, In y l -> p y = true -> 1 <= List.length (filter p l))
    as One.
  { intros y Hy Py.
    assert (In y (filter p l)) as Hin by (apply filter_In; auto).
    destruct (filter p l); [destruct Hin | simpl; lia]. }
  destruct Ha as [-> | Ha], Hb as [-> | Hb]; try congruence.
  - rewrite Pa. simpl. specialize (One b Hb Pb). lia.
  - rewrite Pb. simpl. specialize (One a Ha Pa). lia.
  - specialize (IH Ha Hb Hab Pa Pb). destruct (p x); simpl; lia.
Qed.

Lemma selected_label_count l cols before after :
  List.length (positions l cols 0)
  <= List.length
       (positions l
          (map (fun i => nth i cols [])
               (before ++ positions l cols 0 ++ after)) 0).
Proof.
  rewrite (length_positions l (map _ _)).
  rewrite !map_app, !filter_app, !length_app.
  rewrite (filter_all _ (fun c => str_eqb c l)
             (map (fun i => nth i cols []) (positions l cols 0))).
  - rewrite length_map. lia.
  - apply Forall_forall. intros c Hc.
    apply in_map_iff in Hc as (i & <- & Hi).
    apply positions_nth in Hi as [_ Hi]. rewrite Nat.sub_0_r in Hi.
    rewrite Hi. apply str_eqb_refl.
Qed.

(** X13. A table whose header has a column "42" and also a column that
    already carries the label of the value column is never loaded: after
    the renaming two columns carry the label, and the call raises (KeyError
    when "Month" or "Year" is missing, AttributeError otherwise) without
    printing anything. *)
Theorem doubly_labelled_table_raises fs file_path column_name raw t :
  fs file_path = Ret raw ->
  In naics_total (columns raw) ->
  In (label column_name) (columns raw) ->
  exists e,
    selection_error e /\
    load_and_clean_data fs file_path column_name t = (Raise e, t).
Proof.
  intros Hfs H42 Hlab.
  set (cols := columns (rename (label column_name) raw)).
  assert (2 <= List.length (positions (label column_name) cols 0)) as Two.
  { rewrite length_positions. unfold cols. simpl.
    rewrite filter_map_swap, length_map.
    apply two_matches with (a := naics_total) (b := label column_name); auto.
    - destruct column_name; discriminate.
    - destruct column_name; reflexivity.
    - destruct column_name; reflexivity. }
  unfold load_and_clean_data, bind, try, read_csv. rewrite Hfs.
  unfold getitem_list. fold cols.
  destruct (filter _ _) as [|l missing]; [|selection_fails_now].
  set (df_clean := mkDataFrame _ _). run_step. unfold getitem_str.
  destruct (positions Month_label (columns df_clean) 0) as [|i [|? ?]];
    run_step; [selection_fails_now | | selection_fails_now].
  destruct (positions Year_label (columns df_clean) 0) as [|j [|? ?]];
    run_step; [selection_fails_now | | selection_fails_now].
  pose proof (selected_label_count (label column_name) cols
                (positions Month_label cols 0 ++ positions Year_label cols 0)
                []) as Count.
  assert (columns df_clean
          = map (fun i => nth i cols [])
                ((positions Month_label cols 0 ++ positions Year_label cols 0)
                 ++ positions (label column_name) cols 0 ++ [])) as Ecols.
  { unfold df_clean. simpl. now rewrite <- !app_assoc. }
  rewrite <- Ecols in Count.
  destruct (positions (label column_name) (columns df_clean) 0) as [|k [|? ?]];
    run_step; [selection_fails_now | | selection_fails_now].
  simpl in Count. lia.
Qed.

Lemma doubly_labelled_sales_raise :
  exists e,
    selection_error e /\
    load_and_clean_data (disk (Ret doubly_labelled_sales) (Ret sample_inventories))
      SALES_FILE SalesColumn [] = (Raise e, []).
Proof.
  apply (doubly_labelled_table_raises
           (disk (Ret doubly_labelled_sales) (Ret sample_inventories))
           SALES_FILE SalesColumn doubly_labelled_sales []).
  - reflexivity.
  - simpl. auto.
  - simpl. auto.
Defined.

(** ** Which dates are read *)







Lemma match_literal_splits lit s rest :
  match_literal lit s = Some rest ->
  exists found, s = found ++ rest /\ map lower found = map lower lit.
Proof.
  revert s; induction lit as [|x lit IH]; intros s; simpl.
  - intros [= <-]. now exists [].
  - destruct s as [|c s]; [discriminate|].
    destruct (Ascii.eqb (lower x) (lower c)) eqn:E; [|discriminate].
    apply Ascii.eqb_eq in E. intros H.
    apply IH in H as (found & -> & Hf).
    exists (c :: found). simpl. now rewrite Hf, E.
Qed.

Lemma match_month_splits names k s m rest :
  match_month names k s = Some (m, rest) ->
  exists found name,
    s = found ++ rest /\
    nth_error names (Z.to_nat (m - k)) = Some name /\
    map lower found = map lower name.
Proof.
  revert k; induction names as [|n names IH]; intros k; simpl; [discriminate|].
  destruct (match_literal n s) as [r|] eqn:E.
  - intros [= <- <-]. apply match_literal_splits in E as (found & -> & Hf).
    exists found, n. rewrite Z.sub_diag. auto.
  - intros H. pose proof (match_month_range _ _ _ _ _ H) as R.
    apply IH in H as (found & name & -> & Hn & Hf).
    exists found, name. repeat split; auto.
    replace (Z.to_nat (m - k)) with (S (Z.to_nat (m - (k + 1)))) by lia.
    exact Hn.
Qed.


Lemma month_number_is_a_name s m :
  month_number s = Some m ->
  exists name,
    nth_error month_names (Z.to_nat (m - 1)) = Some name /\
    map lower s = name.
Proof.
  unfold month_number.
  destruct (match_month month_names 1 s) as [[k [|? ?]]|] eqn:E;
    try discriminate.
  intros [= <-].
  apply match_month_splits in E as (found & name & -> & Hn & Hf).
  exists name. split; [exact Hn|]. rewrite app_nil_r, Hf.
  pose proof (match_month_range month_names 1 (found ++ []) k []) as R.
  clear - Hn.
  assert (In name month_names) as Hin by (eapply nth_error_In; exact Hn).
  simpl in Hin.
  repeat (destruct Hin as [<- | Hin]; [reflexivity|]). destruct Hin.
Qed.

Lemma lower_idempotent c : lower (lower c) = lower c.
Proof. destruct c as [[] [] [] [] [] [] [] []]; reflexivity. Qed.

Lemma match_literal_lower lit s :
  match_literal lit (map lower s)
  = option_map (map lower) (match_literal lit s).
Proof.
  revert s; induction lit as [|x lit IH]; intros s; simpl; [reflexivity|].
  destruct s as [|c s]; simpl; [reflexivity|].
  rewrite lower_idempotent.
  destruct (Ascii.eqb (lower x) (lower c)); [apply IH | reflexivity].
Qed.

Lemma match_month_lower names k s :
  match_month names k (map lower s)
  = option_map (fun found => (fst found, map lower (snd found)))
               (match_month names k s).
Proof.
  revert k; induction names as [|n names IH]; intros k; simpl; [reflexivity|].
  rewrite match_literal_lower.
  destruct (match_literal n s); simpl; [reflexivity | apply IH].
Qed.

(** X15. A text is read as month number m exactly when, put in lower
    case, it is the m-th of the twelve full English month names. *)
Theorem month_number_names_the_month (s : str) (m : Z) :
  month_number s = Some m <->
  (1 <= m <= 12)%Z /\
  nth_error month_names (Z.to_nat (m - 1)) = Some (map lower s).
Proof.
  split.
  - intros H. split.
    + unfold month_number in H.
      destruct (match_month month_names 1 s) as [[k [|? ?]]|] eqn:E;
        try discriminate.
      injection H as <-. apply match_month_range in E. simpl in E. lia.
    + apply month_number_is_a_name in H as (name & Hn & <-). exact Hn.
  - intros [R Hn].
    assert (match_month month_names 1 (map lower s) = Some (m, [])) as E.
    { assert (m = 1 \/ m = 2 \/ m = 3 \/ m = 4 \/ m = 5 \/ m = 6 \/ m = 7 \/
              m = 8 \/ m = 9 \/ m = 10 \/ m = 11 \/ m = 12)%Z as C by lia.
      repeat (destruct C as [-> | C];
              [injection Hn as <-; reflexivity|]).
      subst m. injection Hn as <-. reflexivity. }
    rewrite match_month_lower in E. unfold month_number.
    destruct (match_month month_names 1 s) as [[k rest]|]; [|discriminate].
    simpl in E. injection E as -> E.
    destruct rest; [reflexivity | discriminate].
Qed.

Lemma month_number_of_March :
  month_number (txt "March") = Some 3%Z.
Proof.
  apply (month_number_names_the_month (txt "March") 3).
  split; [lia | reflexivity].
Defined.

(** ** Thousands separators *)





